(** * WebSocketClient: connection state machine and reconnection scheduler

    A shallow embedding of [WebSocketClient] (the class extending
    [EventEmitter] with [connect], [disconnect], [sendMessage], the four
    transport handlers and [scheduleReconnect]) together with a model of the
    host it runs on: the WebSocket objects it creates, the timer queue behind
    [setTimeout]/[clearTimeout], the console and the subscribers of the
    emitter.

    Methods are written in a small state-and-exception monad so that every
    statement of the class has one line here, [try]/[catch] included.

    Numbers are taken to be integers ([Z]); JavaScript's doubles agree with
    them on the integer range the retry options live in. *)

From Stdlib Require Import ZArith List String Bool Lia.
From stdpp Require Import base decidable option list.
Import ListNotations.

Local Open Scope Z_scope.
Local Open Scope string_scope.
Local Open Scope list_scope.

(** ** Data model *)

(** [enum WebSocketEvents], each event with the payload it is emitted with. *)
Module WebSocketEvents.
Inductive t : Type :=
| Connected
| Disconnected (wasClean : bool) (code : Z)
| Message (data : string)
| Error (error : string)
| Reconnecting (attempt : Z)
| Reconnected.
End WebSocketEvents.

(** [enum WebSocketState]. *)
Module WebSocketState.
Inductive t : Type :=
| Idle
| Connecting
| Connected
| Reconnecting
| Disconnecting.

(** [===] on states. *)
Definition eqb (a b : t) : bool :=
  match a, b with
  | Idle, Idle | Connecting, Connecting | Connected, Connected
  | Reconnecting, Reconnecting | Disconnecting, Disconnecting => true
  | _, _ => false
  end.
End WebSocketState.

(** [interface ReconnectOptions]. *)
Record ReconnectOptions : Type := mkReconnectOptions {
  retries : Z;
  delay : Z;
  increaseDelay : bool
}.

(** Values thrown and caught ([error] in the [catch] clauses), opaque. *)
Definition JsValue : Type := string.

(** What [sendMessage] accepts: text, or a binary buffer or view. *)
Inductive Payload : Type :=
| Text (s : string)
| Binary (bytes : list Z).

(** The fields of a [CloseEvent] the class reads. *)
Record CloseEvent : Type := mkCloseEvent {
  code : Z;
  reason : string;
  wasClean : bool
}.

(** The argument of [onerror]: an [ErrorEvent] carrying [error], or a plain
    [Event]. *)
Inductive ErrorArg : Type :=
| PlainEvent
| ErrorEvent (error : JsValue).

(** [WebSocket.readyState].  [CLOSED] here means that the close event has
    been delivered: a socket dispatches nothing after it. *)
Inductive ReadyState : Type := CONNECTING | OPEN | CLOSING | CLOSED.

(** Sockets and timers are named by natural numbers. *)
Abbreviation TransportId := nat.
Abbreviation TimerId := nat.

(** An entry of the host's timer queue.  The class registers one callback
    only, the arrow function of [scheduleReconnect], so an entry need not
    say which. *)
Record Timer : Type := mkTimer {
  timer_id : TimerId;
  timer_delay : Z;
  timer_due : Z
}.

Inductive Level : Type := LOG | WARN | ERROR.

(** The private fields of a [WebSocketClient]. *)
Record Client : Type := mkClient {
  url : string;
  ws : option TransportId;
  state : WebSocketState.t;
  reconnectOptions : option ReconnectOptions;
  reconnectAttempts : Z;
  reconnectTimeoutId : option TimerId;
  isReconnectingAttempt : bool
}.

(** The host: what subscribers received ([emitted], oldest first), the
    console, every WebSocket constructed so far (a [TransportId] is an index
    into [sockets]), the frames handed to [WebSocket.send], the pending
    timers and the clock. *)
Record Host : Type := mkHost {
  emitted : list WebSocketEvents.t;
  console : list (Level * string);
  sockets : list ReadyState;
  wire : list (TransportId * Payload);
  timers : list Timer;
  nextTimer : TimerId;
  now : Z
}.

Record World : Type := mkWorld {
  this : Client;
  host : Host
}.

(** ** Field updates *)

Definition with_ws (v : option TransportId) (c : Client) : Client :=
  mkClient (url c) v (state c) (reconnectOptions c) (reconnectAttempts c)
           (reconnectTimeoutId c) (isReconnectingAttempt c).

Definition with_state (v : WebSocketState.t) (c : Client) : Client :=
  mkClient (url c) (ws c) v (reconnectOptions c) (reconnectAttempts c)
           (reconnectTimeoutId c) (isReconnectingAttempt c).

Definition with_reconnectAttempts (v : Z) (c : Client) : Client :=
  mkClient (url c) (ws c) (state c) (reconnectOptions c) v
           (reconnectTimeoutId c) (isReconnectingAttempt c).

Definition with_reconnectTimeoutId (v : option TimerId) (c : Client) : Client :=
  mkClient (url c) (ws c) (state c) (reconnectOptions c) (reconnectAttempts c)
           v (isReconnectingAttempt c).

Definition with_isReconnectingAttempt (v : bool) (c : Client) : Client :=
  mkClient (url c) (ws c) (state c) (reconnectOptions c) (reconnectAttempts c)
           (reconnectTimeoutId c) v.

Definition with_emitted (v : list WebSocketEvents.t) (h : Host) : Host :=
  mkHost v (console h) (sockets h) (wire h) (timers h) (nextTimer h) (now h).

Definition with_console (v : list (Level * string)) (h : Host) : Host :=
  mkHost (emitted h) v (sockets h) (wire h) (timers h) (nextTimer h) (now h).

Definition with_sockets (v : list ReadyState) (h : Host) : Host :=
  mkHost (emitted h) (console h) v (wire h) (timers h) (nextTimer h) (now h).

Definition with_wire (v : list (TransportId * Payload)) (h : Host) : Host :=
  mkHost (emitted h) (console h) (sockets h) v (timers h) (nextTimer h) (now h).

Definition with_timers (v : list Timer) (n : TimerId) (h : Host) : Host :=
  mkHost (emitted h) (console h) (sockets h) (wire h) v n (now h).

Definition with_now (v : Z) (h : Host) : Host :=
  mkHost (emitted h) (console h) (sockets h) (wire h) (timers h) (nextTimer h) v.

(** ** The monad: state passing with exceptions *)

Inductive Completion (A : Type) : Type :=
| Normal (a : A)
| Thrown (e : JsValue).
Arguments Normal {A} a.
Arguments Thrown {A} e.

Definition M (A : Type) : Type := World -> Completion A * World.

Definition ret {A} (a : A) : M A := fun w => (Normal a, w).

Definition bind {A B} (m : M A) (k : A -> M B) : M B :=
  fun w =>
    match m w with
    | (Normal a, w') => k a w'
    | (Thrown e, w') => (Thrown e, w')
    end.

Definition throw {A} (e : JsValue) : M A := fun w => (Thrown e, w).

(** [try { body } catch (error) { handler }]. *)
Definition try_catch {A} (body : M A) (handler : JsValue -> M A) : M A :=
  fun w =>
    match body w with
    | (Normal a, w') => (Normal a, w')
    | (Thrown e, w') => handler e w'
    end.

Declare Scope js_scope.
Delimit Scope js_scope with js.
Notation "x <- m ;; k" := (bind m (fun x => k))
  (at level 100, m at next level, right associativity) : js_scope.
Notation "m ;; k" := (bind m (fun _ => k))
  (at level 100, right associativity) : js_scope.
Local Open Scope js_scope.

Definition gets {A} (f : Client -> A) : M A := fun w => (Normal (f (this w)), w).

Definition update (f : Client -> Client) : M unit :=
  fun w => (Normal tt, mkWorld (f (this w)) (host w)).

Definition on_host (f : Host -> Host) : M unit :=
  fun w => (Normal tt, mkWorld (this w) (f (host w))).

(** What remains of a computation once it has run: the world. *)
Definition run_in {A} (m : M A) (w : World) : World := snd (m w).

(** Does it return to its caller, or does an exception escape? *)
Definition returns {A} (m : M A) (w : World) : bool :=
  match fst (m w) with Normal _ => true | Thrown _ => false end.

(** ** Host primitives *)

(** [this.emit(event, payload)]: subscribers are called synchronously, in
    order; they are outside the class, and what they receive is recorded. *)
Definition emit (ev : WebSocketEvents.t) : M unit :=
  on_host (fun h => with_emitted (emitted h ++ [ev]) h).

Definition console_log (msg : string) : M unit :=
  on_host (fun h => with_console (console h ++ [(LOG, msg)]) h).
Definition console_warn (msg : string) : M unit :=
  on_host (fun h => with_console (console h ++ [(WARN, msg)]) h).
Definition console_error (msg : string) : M unit :=
  on_host (fun h => with_console (console h ++ [(ERROR, msg)]) h).

(** [new WebSocket(url)].  The host decides whether the constructor throws
    ([ctor = Some e]) or yields a socket in [CONNECTING]. *)
Definition newWebSocket (ctor : option JsValue) : M TransportId :=
  match ctor with
  | Some e => throw e
  | None => fun w =>
      (Normal (length (sockets (host w))),
       mkWorld (this w) (with_sockets (sockets (host w) ++ [CONNECTING]) (host w)))
  end.

(** [WebSocket.close()] without arguments: never throws; a socket that is
    connecting or open starts closing, the close event comes later. *)
Definition closing (r : ReadyState) : ReadyState :=
  match r with
  | CONNECTING | OPEN => CLOSING
  | CLOSING => CLOSING
  | CLOSED => CLOSED
  end.

Definition ws_close (t : TransportId) : M unit :=
  on_host (fun h =>
    match sockets h !! t with
    | Some r => with_sockets (<[t := closing r]> (sockets h)) h
    | None => h
    end).

(** [WebSocket.send(data)]: the host decides whether it throws. *)
Definition ws_send (outcome : option JsValue) (t : TransportId) (data : Payload) : M unit :=
  match outcome with
  | Some e => throw e
  | None => on_host (fun h => with_wire (wire h ++ [(t, data)]) h)
  end.

(** [setTimeout(callback, ms)]: a fresh handle, due [ms] from now (at once
    when [ms] is negative). *)
Definition setTimeout (ms : Z) : M TimerId :=
  fun w =>
    let h := host w in
    (Normal (nextTimer h),
     mkWorld (this w)
       (with_timers (timers h ++ [mkTimer (nextTimer h) ms (now h + Z.max 0 ms)])
                    (S (nextTimer h)) h)).

Definition cancel (id : TimerId) (l : list Timer) : list Timer :=
  List.filter (fun t => negb (Nat.eqb (timer_id t) id)) l.

(** [clearTimeout(id)]. *)
Definition clearTimeout (id : TimerId) : M unit :=
  on_host (fun h => with_timers (cancel id (timers h)) (nextTimer h) h).

(** ** The class *)

Import WebSocketState.

Definition isSome {A} (o : option A) : bool :=
  match o with Some _ => true | None => false end.

(** [new WebSocketClient(url, reconnectOptions)]. *)
Definition constructor (url : string) (reconnectOptions : option ReconnectOptions) : Client :=
  mkClient url None Idle reconnectOptions 0 None false.

(** [private clearReconnectTimer()]. *)
Definition clearReconnectTimer : M unit :=
  tid <- gets reconnectTimeoutId ;;
  match tid with
  | Some id =>
      clearTimeout id ;;
      update (with_reconnectTimeoutId None) ;;
      update (with_isReconnectingAttempt false) ;;
      console_log "[WebSocketClient] Reconnect timer cleared."
  | None => ret tt
  end.

(** The delay [scheduleReconnect] computes once the attempt counter has been
    incremented to [attempts]. *)
Definition currentDelay (o : ReconnectOptions) (attempts : Z) : Z :=
  if increaseDelay o then delay o * attempts else delay o.

(** [private scheduleReconnect()].  The arrow function handed to
    [setTimeout] is [reconnectTimerCallback] below; the host runs it when
    the timer fires. *)
Definition scheduleReconnect : M unit :=
  opts <- gets reconnectOptions ;;
  tid <- gets reconnectTimeoutId ;;
  st <- gets state ;;
  if negb (isSome opts) || isSome tid || eqb st Disconnecting then
    update (with_isReconnectingAttempt false)
  else
    match opts with
    | None => ret tt
    | Some o =>
        attempts <- gets reconnectAttempts ;;
        if (attempts >=? retries o)%Z then
          console_error "[WebSocketClient] Reached max reconnect attempts." ;;
          update (with_reconnectAttempts 0) ;;
          update (with_isReconnectingAttempt false)
        else
          update (fun c => with_reconnectAttempts (reconnectAttempts c + 1) c) ;;
          attempts <- gets reconnectAttempts ;;
          console_log "[WebSocketClient] Attempting to reconnect" ;;
          update (with_state Reconnecting) ;;
          update (with_isReconnectingAttempt true) ;;
          emit (WebSocketEvents.Reconnecting attempts) ;;
          id <- setTimeout (currentDelay o attempts) ;;
          update (with_reconnectTimeoutId (Some id))
    end.

(** [public connect()].  [ctor] is the host's answer to [new WebSocket]:
    [Some e] when the constructor throws [e].  Assigning the four [on...]
    handlers is what lets the host deliver the socket's events to the
    handlers below. *)
Definition connect (ctor : option JsValue) : M unit :=
  st <- gets state ;;
  if eqb st Connecting || eqb st Connected || eqb st Disconnecting then
    ret tt
  else
    console_log "[WebSocketClient] Connecting" ;;
    update (with_state Connecting) ;;
    tid <- gets reconnectTimeoutId ;;
    match tid with
    | Some id => clearTimeout id ;; update (with_reconnectTimeoutId None)
    | None => ret tt
    end ;;
    try_catch
      (sock <- newWebSocket ctor ;;
       update (with_ws (Some sock)))
      (fun error =>
         console_error "[WebSocketClient] Failed to create WebSocket connection:" ;;
         update (with_state Idle) ;;
         update (with_isReconnectingAttempt false) ;;
         emit (WebSocketEvents.Error error) ;;
         scheduleReconnect).

(** [public disconnect()]. *)
Definition disconnect : M unit :=
  sock <- gets ws ;;
  st <- gets state ;;
  match sock with
  | None => console_warn "[WebSocketClient] Not connected or already disconnecting."
  | Some t =>
      if eqb st Idle || eqb st Disconnecting then
        console_warn "[WebSocketClient] Not connected or already disconnecting."
      else
        console_log "[WebSocketClient] Disconnecting..." ;;
        update (with_state Disconnecting) ;;
        update (with_isReconnectingAttempt false) ;;
        clearReconnectTimer ;;
        update (with_reconnectAttempts 0) ;;
        ws_close t
  end.

(** [public isConnected()] and [public getState()]. *)
Definition isConnected (c : Client) : bool := eqb (state c) Connected.
Definition getState (c : Client) : WebSocketState.t := state c.

(** [public sendMessage(data)].  [outcome] is the host's answer to
    [this.ws.send(data)]: [Some e] when it throws [e]. *)
Definition sendMessage (outcome : option JsValue) (data : Payload) : M unit :=
  connected <- gets isConnected ;;
  sock <- gets ws ;;
  match sock with
  | None => console_warn "[WebSocketClient] Cannot send message. Not connected."
  | Some t =>
      if negb connected then
        console_warn "[WebSocketClient] Cannot send message. Not connected."
      else
        try_catch
          (ws_send outcome t data ;;
           console_log "[WebSocketClient] Message sent:")
          (fun error =>
             console_error "[WebSocketClient] Failed to send message:" ;;
             emit (WebSocketEvents.Error error))
  end.

(** [private handleOpen()]. *)
Definition handleOpen : M unit :=
  wasReconnecting <- gets isReconnectingAttempt ;;
  console_log "[WebSocketClient] Connection established." ;;
  update (with_state Connected) ;;
  update (with_reconnectAttempts 0) ;;
  update (with_isReconnectingAttempt false) ;;
  (if (wasReconnecting : bool) then emit WebSocketEvents.Reconnected else ret tt) ;;
  emit WebSocketEvents.Connected.

(** [private handleMessage(event)]. *)
Definition handleMessage (data : string) : M unit :=
  console_log "[WebSocketClient] Message received:" ;;
  emit (WebSocketEvents.Message data).

(** [private handleClose(event)]. *)
Definition handleClose (event : CloseEvent) : M unit :=
  st <- gets state ;;
  if eqb st Disconnecting then
    console_log "[WebSocketClient] Connection closed intentionally." ;;
    update (with_ws None) ;;
    update (with_state Idle) ;;
    update (with_isReconnectingAttempt false) ;;
    emit (WebSocketEvents.Disconnected (wasClean event) (code event))
  else
    console_warn "[WebSocketClient] Connection closed unexpectedly." ;;
    update (with_ws None) ;;
    previousState <- gets state ;;
    update (with_state Idle) ;;
    emit (WebSocketEvents.Disconnected (wasClean event) (code event)) ;;
    opts <- gets reconnectOptions ;;
    if isSome opts && (eqb previousState Connected || eqb previousState Connecting
                       || eqb previousState Reconnecting) then
      scheduleReconnect
    else
      update (with_isReconnectingAttempt false).

(** [private handleError(event)]: an [ErrorEvent] yields its [error], any
    other event a fresh [Error] with the fixed message. *)
Definition error_of (event : ErrorArg) : JsValue :=
  match event with
  | ErrorEvent e => e
  | PlainEvent => "WebSocket error occurred"
  end.

Definition handleError (event : ErrorArg) : M unit :=
  console_error "[WebSocketClient] WebSocket error:" ;;
  emit (WebSocketEvents.Error (error_of event)).

(** The arrow function [scheduleReconnect] hands to [setTimeout]. *)
Definition reconnectTimerCallback (ctor : option JsValue) : M unit :=
  update (with_reconnectTimeoutId None) ;;
  st <- gets state ;;
  if eqb st Reconnecting then connect ctor
  else update (with_isReconnectingAttempt false).

(** ** The host's event loop

    One [Input] is one task of the event loop: a call of a public method by
    the application, an event a socket dispatches to the handler the class
    installed on it, time passing, or a timer firing.  [step] is partial: a
    socket dispatches [open] only while connecting, messages only once open,
    nothing once it has closed; a timer fires only while it is pending and
    no sooner than it is due. *)
Inductive Input : Type :=
| CallConnect (ctor : option JsValue)
| CallDisconnect
| CallSendMessage (outcome : option JsValue) (data : Payload)
| OnOpen (t : TransportId)
| OnMessage (t : TransportId) (data : string)
| OnError (t : TransportId) (event : ErrorArg)
| OnClose (t : TransportId) (event : CloseEvent)
| Elapse (ms : Z)
| TimerFires (id : TimerId) (ctor : option JsValue).

Definition set_ready (t : TransportId) (r : ReadyState) (w : World) : World :=
  mkWorld (this w) (with_sockets (<[t := r]> (sockets (host w))) (host w)).

Definition find_timer (id : TimerId) (l : list Timer) : option Timer :=
  List.find (fun t => Nat.eqb (timer_id t) id) l.

Definition dequeue (id : TimerId) (w : World) : World :=
  mkWorld (this w)
    (with_timers (cancel id (timers (host w))) (nextTimer (host w)) (host w)).

Definition step (i : Input) (w : World) : option World :=
  match i with
  | CallConnect ctor => Some (run_in (connect ctor) w)
  | CallDisconnect => Some (run_in disconnect w)
  | CallSendMessage outcome data => Some (run_in (sendMessage outcome data) w)
  | OnOpen t =>
      match sockets (host w) !! t with
      | Some CONNECTING => Some (run_in handleOpen (set_ready t OPEN w))
      | _ => None
      end
  | OnMessage t data =>
      match sockets (host w) !! t with
      | Some OPEN | Some CLOSING => Some (run_in (handleMessage data) w)
      | _ => None
      end
  | OnError t event =>
      match sockets (host w) !! t with
      | Some CONNECTING | Some OPEN | Some CLOSING => Some (run_in (handleError event) w)
      | _ => None
      end
  | OnClose t event =>
      match sockets (host w) !! t with
      | Some CONNECTING | Some OPEN | Some CLOSING =>
          Some (run_in (handleClose event) (set_ready t CLOSED w))
      | _ => None
      end
  | Elapse ms =>
      if (0 <=? ms)%Z then Some (mkWorld (this w) (with_now (now (host w) + ms) (host w)))
      else None
  | TimerFires id ctor =>
      match find_timer id (timers (host w)) with
      | Some tm =>
          if (timer_due tm <=? now (host w))%Z then
            Some (run_in (reconnectTimerCallback ctor) (dequeue id w))
          else None
      | None => None
      end
  end.

Fixpoint run (tr : list Input) (w : World) : option World :=
  match tr with
  | [] => Some w
  | i :: tr' =>
      match step i w with
      | Some w' => run tr' w'
      | None => None
      end
  end.

Definition initial_host : Host := mkHost [] [] [] [] [] 1%nat 0.

(** The world right after [new WebSocketClient(url, reconnectOptions)]. *)
Definition initial (url : string) (reconnectOptions : option ReconnectOptions) : World :=
  mkWorld (constructor url reconnectOptions) initial_host.

(** [w] is reachable: some run of the event loop leads to it from a freshly
    constructed client. *)
Definition reachable (w : World) : Prop :=
  exists url opts tr, run tr (initial url opts) = Some w.

(** ** Consistency of the fields *)

(** The [readyState] a socket has when the client is in a given state and
    owns it; [None] for the states in which the client owns no socket. *)
Definition ready_of (st : WebSocketState.t) : option ReadyState :=
  match st with
  | Connecting => Some CONNECTING
  | Connected => Some OPEN
  | Disconnecting => Some CLOSING
  | Idle | Reconnecting => None
  end.

(** Every socket that has not closed yet is the one in [this.ws]. *)
Definition live_only (o : option TransportId) (l : list ReadyState) : Prop :=
  forall t r, l !! t = Some r -> r <> CLOSED -> o = Some t.

Record consistent (w : World) : Prop := mkConsistent {
  ws_present : isSome (ws (this w)) = isSome (ready_of (state (this w)));
  ws_ready : match ws (this w) with
             | Some t => sockets (host w) !! t = ready_of (state (this w))
             | None => True
             end;
  ws_only : live_only (ws (this w)) (sockets (host w));
  timer_owned : map timer_id (timers (host w)) =
                match reconnectTimeoutId (this w) with
                | Some id => [id]
                | None => []
                end;
  timer_state : isSome (reconnectTimeoutId (this w)) = eqb (state (this w)) Reconnecting;
  flag_set : eqb (state (this w)) Reconnecting = true ->
             isReconnectingAttempt (this w) = true /\ isSome (reconnectOptions (this w)) = true;
  attempts_nonneg : 0 <= reconnectAttempts (this w);
  attempts_rest : match state (this w) with
                  | Idle | Connected | Disconnecting => reconnectAttempts (this w) = 0
                  | Connecting | Reconnecting => True
                  end;
  attempts_policy : reconnectOptions (this w) = None -> reconnectAttempts (this w) = 0
}.


(** ** Vocabulary of the properties *)



Definition is_reconnected (e : WebSocketEvents.t) : bool :=
  match e with
  | WebSocketEvents.Reconnected => true
  | _ => false
  end.

(** How many times Reconnected was emitted. *)
Definition reconnections (l : list WebSocketEvents.t) : nat :=
  length (List.filter is_reconnected l).

(** The attempt numbers of the Reconnecting events, in order. *)
Fixpoint reconnecting_attempts (l : list WebSocketEvents.t) : list Z :=
  match l with
  | [] => []
  | WebSocketEvents.Reconnecting k :: l' => k :: reconnecting_attempts l'
  | _ :: l' => reconnecting_attempts l'
  end.

(** From one world to a later one, a socket stays in the table and never
    returns to [CONNECTING]. *)
Definition moves_forward (s s' : list ReadyState) : Prop :=
  forall t r, s !! t = Some r ->
    exists r', s' !! t = Some r' /\ (r' = CONNECTING -> r = CONNECTING).


(** How an attempt to connect fails: the WebSocket constructor throws, or
    the socket is constructed and closes without ever opening, after any
    number of [error] events. *)
Inductive Failure : Type :=
| ConstructorThrows (e : JsValue)
| ClosesUnopened (errors : list ErrorArg) (event : CloseEvent).

(** The tasks of one failed retry: [wait] passes, timer [id] fires, and the
    attempt fails in the way [f] says; [t] names the socket it constructs,
    if it constructs one. *)
Definition failed_retry (id : TimerId) (t : TransportId) (wait : Z) (f : Failure)
  : list Input :=
  Elapse wait ::
  match f with
  | ConstructorThrows e => [TimerFires id (Some e)]
  | ClosesUnopened errors event =>
      TimerFires id None :: map (OnError t) errors ++ [OnClose t event]
  end.

(** What the client emits during such an attempt. *)
Definition failure_events (f : Failure) : list WebSocketEvents.t :=
  match f with
  | ConstructorThrows e => [WebSocketEvents.Error e]
  | ClosesUnopened errors event =>
      map (fun a => WebSocketEvents.Error (error_of a)) errors
      ++ [WebSocketEvents.Disconnected (wasClean event) (code event)]
  end.

Definition sockets_built (f : Failure) : nat :=
  match f with
  | ConstructorThrows _ => 0
  | ClosesUnopened _ _ => 1
  end.

(** ** Further vocabulary *)

Definition is_connected (e : WebSocketEvents.t) : bool :=
  match e with
  | WebSocketEvents.Connected => true
  | _ => false
  end.

Definition is_disconnected (e : WebSocketEvents.t) : bool :=
  match e with
  | WebSocketEvents.Disconnected _ _ => true
  | _ => false
  end.

(** How many of the emitted events satisfy [p]. *)
Definition occurrences (p : WebSocketEvents.t -> bool) (l : list WebSocketEvents.t) : nat :=
  length (List.filter p l).

Definition is_open_event (i : Input) : bool :=
  match i with OnOpen _ => true | _ => false end.

Definition is_close_event (i : Input) : bool :=
  match i with OnClose _ _ => true | _ => false end.

(** No trace of a retry: the flag is clear and neither Reconnecting nor
    Reconnected was ever emitted. *)
Definition retry_free (w : World) : Prop :=
  isReconnectingAttempt (this w) = false
  /\ reconnecting_attempts (emitted (host w)) = []
  /\ reconnections (emitted (host w)) = 0%nat.

(** The attempt counter and the attempts announced stay within the
    policy. *)
Definition within_policy (w : World) : Prop :=
  match reconnectOptions (this w) with
  | Some o =>
      0 <= reconnectAttempts (this w) <= Z.max 0 (retries o)
      /\ Forall (fun k => 1 <= k <= retries o)
                (reconnecting_attempts (emitted (host w)))
  | None => True
  end.

(** What a subscriber that only listens to Connected and Disconnected
    believes: the link is up when the later of the two was Connected. *)
Definition link_after (up : bool) (e : WebSocketEvents.t) : bool :=
  match e with
  | WebSocketEvents.Connected => true
  | WebSocketEvents.Disconnected _ _ => false
  | _ => up
  end.

Definition link_up (l : list WebSocketEvents.t) : bool :=
  fold_left link_after l false.

(** The subscriber's belief agrees with the state, Disconnecting apart. *)
Definition link_agrees (w : World) : Prop :=
  match state (this w) with
  | Connected => link_up (emitted (host w)) = true
  | Disconnecting => True
  | Idle | Connecting | Reconnecting => link_up (emitted (host w)) = false
  end.

(** Every Reconnected answers a Reconnecting of its own, and a set flag
    stands for a Reconnecting not answered yet. *)
Definition retries_announced (w : World) : Prop :=
  (reconnections (emitted (host w))
   + (if isReconnectingAttempt (this w) then 1 else 0)
   <= length (reconnecting_attempts (emitted (host w))))%nat.

(** ** Subscribers that call back

    [EventEmitter.emit] runs the subscribers before it returns, inside the
    method that emits, and a subscriber may call [connect()],
    [disconnect()] or [sendMessage()] there, or throw.  [emit] above
    records the event and stops: it is the emitter of a client whose
    subscribers do nothing to it.  [Subscribed.emit] is the emitter in
    general: a subscriber is given by what it does when it receives an
    event, and the methods are the same ones with [this.emit] as a
    parameter. *)

Inductive Command : Type :=
| DoConnect (ctor : option JsValue)
| DoDisconnect
| DoSendMessage (outcome : option JsValue) (data : Payload)
| DoThrow (error : JsValue).

(** What the application's subscribers do, in order, when they receive an
    event.  It may depend on the event and on everything there is to see
    when the event arrives. *)
Definition Subscribers : Type := WebSocketEvents.t -> World -> list Command.

(** The world as it is now. *)
Definition observe : M World := fun w => (Normal w, w).

Module Subscribed.

Section Methods.

(** [this.emit]. *)
Variable notify : WebSocketEvents.t -> M unit.

(** [private scheduleReconnect()]. *)
Definition scheduleReconnect : M unit :=
  opts <- gets reconnectOptions ;;
  tid <- gets reconnectTimeoutId ;;
  st <- gets state ;;
  if negb (isSome opts) || isSome tid || eqb st Disconnecting then
    update (with_isReconnectingAttempt false)
  else
    match opts with
    | None => ret tt
    | Some o =>
        attempts <- gets reconnectAttempts ;;
        if (attempts >=? retries o)%Z then
          console_error "[WebSocketClient] Reached max reconnect attempts." ;;
          update (with_reconnectAttempts 0) ;;
          update (with_isReconnectingAttempt false)
        else
          update (fun c => with_reconnectAttempts (reconnectAttempts c + 1) c) ;;
          attempts <- gets reconnectAttempts ;;
          console_log "[WebSocketClient] Attempting to reconnect" ;;
          update (with_state Reconnecting) ;;
          update (with_isReconnectingAttempt true) ;;
          notify (WebSocketEvents.Reconnecting attempts) ;;
          id <- setTimeout (currentDelay o attempts) ;;
          update (with_reconnectTimeoutId (Some id))
    end.

(** [public connect()]. *)
Definition connect (ctor : option JsValue) : M unit :=
  st <- gets state ;;
  if eqb st Connecting || eqb st Connected || eqb st Disconnecting then
    ret tt
  else
    console_log "[WebSocketClient] Connecting" ;;
    update (with_state Connecting) ;;
    tid <- gets reconnectTimeoutId ;;
    match tid with
    | Some id => clearTimeout id ;; update (with_reconnectTimeoutId None)
    | None => ret tt
    end ;;
    try_catch
      (sock <- newWebSocket ctor ;;
       update (with_ws (Some sock)))
      (fun error =>
         console_error "[WebSocketClient] Failed to create WebSocket connection:" ;;
         update (with_state Idle) ;;
         update (with_isReconnectingAttempt false) ;;
         notify (WebSocketEvents.Error error) ;;
         scheduleReconnect).

(** [public sendMessage(data)]. *)
Definition sendMessage (outcome : option JsValue) (data : Payload) : M unit :=
  connected <- gets isConnected ;;
  sock <- gets ws ;;
  match sock with
  | None => console_warn "[WebSocketClient] Cannot send message. Not connected."
  | Some t =>
      if negb connected then
        console_warn "[WebSocketClient] Cannot send message. Not connected."
      else
        try_catch
          (ws_send outcome t data ;;
           console_log "[WebSocketClient] Message sent:")
          (fun error =>
             console_error "[WebSocketClient] Failed to send message:" ;;
             notify (WebSocketEvents.Error error))
  end.

(** [private handleOpen()]. *)
Definition handleOpen : M unit :=
  wasReconnecting <- gets isReconnectingAttempt ;;
  console_log "[WebSocketClient] Connection established." ;;
  update (with_state Connected) ;;
  update (with_reconnectAttempts 0) ;;
  update (with_isReconnectingAttempt false) ;;
  (if (wasReconnecting : bool) then notify WebSocketEvents.Reconnected else ret tt) ;;
  notify WebSocketEvents.Connected.

(** [private handleMessage(event)]. *)
Definition handleMessage (data : string) : M unit :=
  console_log "[WebSocketClient] Message received:" ;;
  notify (WebSocketEvents.Message data).

(** [private handleClose(event)]. *)
Definition handleClose (event : CloseEvent) : M unit :=
  st <- gets state ;;
  if eqb st Disconnecting then
    console_log "[WebSocketClient] Connection closed intentionally." ;;
    update (with_ws None) ;;
    update (with_state Idle) ;;
    update (with_isReconnectingAttempt false) ;;
    notify (WebSocketEvents.Disconnected (wasClean event) (code event))
  else
    console_warn "[WebSocketClient] Connection closed unexpectedly." ;;
    update (with_ws None) ;;
    previousState <- gets state ;;
    update (with_state Idle) ;;
    notify (WebSocketEvents.Disconnected (wasClean event) (code event)) ;;
    opts <- gets reconnectOptions ;;
    if isSome opts && (eqb previousState Connected || eqb previousState Connecting
                       || eqb previousState Reconnecting) then
      scheduleReconnect
    else
      update (with_isReconnectingAttempt false).

(** [private handleError(event)]. *)
Definition handleError (event : ErrorArg) : M unit :=
  console_error "[WebSocketClient] WebSocket error:" ;;
  notify (WebSocketEvents.Error (error_of event)).

(** The arrow function [scheduleReconnect] hands to [setTimeout]. *)
Definition reconnectTimerCallback (ctor : option JsValue) : M unit :=
  update (with_reconnectTimeoutId None) ;;
  st <- gets state ;;
  if eqb st Reconnecting then connect ctor
  else update (with_isReconnectingAttempt false).

(** One thing a subscriber does.  An exception a subscriber throws leaves
    [emit] and the method that emitted. *)
Definition perform (c : Command) : M unit :=
  match c with
  | DoConnect ctor => connect ctor
  | DoDisconnect => disconnect
  | DoSendMessage outcome data => sendMessage outcome data
  | DoThrow error => throw error
  end.

Fixpoint perform_all (cs : list Command) : M unit :=
  match cs with
  | [] => ret tt
  | c :: cs' => perform c ;; perform_all cs'
  end.

End Methods.

(** [this.emit(event, payload)] with subscribers [subs]: the event is
    recorded as received, then what the subscribers do runs, in order, each
    call of theirs emitting through this same emitter; an exception ends
    it.  [depth] bounds the nesting of calls inside notifications; beyond
    it the call stack is exhausted and a [RangeError] is thrown, as the
    engine does. *)
Fixpoint emit (subs : Subscribers) (depth : nat) (ev : WebSocketEvents.t) : M unit :=
  on_host (fun h => with_emitted (emitted h ++ [ev]) h) ;;
  w <- observe ;;
  match subs ev w with
  | [] => ret tt
  | c :: cs =>
      match depth with
      | O => throw "RangeError: Maximum call stack size exceeded"
      | S d => perform_all (emit subs d) (c :: cs)
      end
  end.

(** One task of the event loop, for a client with subscribers [subs]. *)
Definition step (subs : Subscribers) (depth : nat) (i : Input) (w : World)
  : option World :=
  let notify := emit subs depth in
  match i with
  | CallConnect ctor => Some (run_in (connect notify ctor) w)
  | CallDisconnect => Some (run_in disconnect w)
  | CallSendMessage outcome data => Some (run_in (sendMessage notify outcome data) w)
  | OnOpen t =>
      match sockets (host w) !! t with
      | Some CONNECTING => Some (run_in (handleOpen notify) (set_ready t OPEN w))
      | _ => None
      end
  | OnMessage t data =>
      match sockets (host w) !! t with
      | Some OPEN | Some CLOSING => Some (run_in (handleMessage notify data) w)
      | _ => None
      end
  | OnError t event =>
      match sockets (host w) !! t with
      | Some CONNECTING | Some OPEN | Some CLOSING =>
          Some (run_in (handleError notify event) w)
      | _ => None
      end
  | OnClose t event =>
      match sockets (host w) !! t with
      | Some CONNECTING | Some OPEN | Some CLOSING =>
          Some (run_in (handleClose notify event) (set_ready t CLOSED w))
      | _ => None
      end
  | Elapse ms =>
      if (0 <=? ms)%Z then Some (mkWorld (this w) (with_now (now (host w) + ms) (host w)))
      else None
  | TimerFires id ctor =>
      match find_timer id (timers (host w)) with
      | Some tm =>
          if (timer_due tm <=? now (host w))%Z then
            Some (run_in (reconnectTimerCallback notify ctor) (dequeue id w))
          else None
      | None => None
      end
  end.

Fixpoint run (subs : Subscribers) (depth : nat) (tr : list Input) (w : World)
  : option World :=
  match tr with
  | [] => Some w
  | i :: tr' =>
      match step subs depth i w with
      | Some w' => run subs depth tr' w'
      | None => None
      end
  end.

End Subscribed.

(** Subscribers that do nothing to the client: they call none of its
    methods and they do not throw. *)
Definition silent (subs : Subscribers) : Prop := forall ev w, subs ev w = [].

(** A subscriber to Disconnected that calls [connect()]. *)
Definition reconnect_on_disconnected : Subscribers :=
  fun ev _ =>
    match ev with
    | WebSocketEvents.Disconnected _ _ => [DoConnect None]
    | _ => []
    end.

(** A subscriber to Reconnecting that calls [connect()], in a host whose
    WebSocket constructor gives [ctor]. *)
Definition connect_on_reconnecting (ctor : option JsValue) : Subscribers :=
  fun ev _ =>
    match ev with
    | WebSocketEvents.Reconnecting _ => [DoConnect ctor]
    | _ => []
    end.

(** A subscriber to Connected that calls [disconnect()]. *)
Definition disconnect_on_connected : Subscribers :=
  fun ev _ =>
    match ev with
    | WebSocketEvents.Connected => [DoDisconnect]
    | _ => []
    end.

Definition calls_connect (c : Command) : bool :=
  match c with
  | DoConnect _ => true
  | _ => false
  end.

(** Subscribers that never call [connect()]: they may call
    [disconnect()] and [sendMessage()], and they may throw. *)
Definition connect_free (subs : Subscribers) : Prop :=
  forall ev w, forallb (fun c => negb (calls_connect c)) (subs ev w) = true.

(** The part of [consistent] that survives subscribers calling
    [disconnect()] and [sendMessage()] or throwing: the socket goes with
    the state, no other socket is alive, and the host's queue holds the
    timer the client names and no other. *)
Definition tidy (w : World) : Prop :=
  isSome (ws (this w)) = isSome (ready_of (state (this w)))
  /\ live_only (ws (this w)) (sockets (host w))
  /\ map timer_id (timers (host w)) =
     match reconnectTimeoutId (this w) with
     | Some id => [id]
     | None => []
     end.

(** What the methods need of [this.emit] to keep the world [tidy]: a
    notification keeps it tidy, and while the client holds no socket a
    notification leaves the client's fields, the sockets and the timers
    as they are. *)
Definition gentle (notify : WebSocketEvents.t -> M unit) : Prop :=
  forall ev w,
    (tidy w -> tidy (run_in (notify ev) w))
    /\ (ws (this w) = None ->
        this (run_in (notify ev) w) = this w
        /\ sockets (host (run_in (notify ev) w)) = sockets (host w)
        /\ timers (host (run_in (notify ev) w)) = timers (host w)
        /\ nextTimer (host (run_in (notify ev) w)) = nextTimer (host w)).

(** * Proofs *)

(** ** Sockets: who is still alive *)

Lemma live_only_new (l : list ReadyState) :
  live_only None l -> live_only (Some (length l)) (l ++ [CONNECTING]).
Proof.
  intros H t r Ht Hr.
  destruct (decide (t < length l)%nat) as [Hlt|Hge].
  - rewrite lookup_app_l in Ht by exact Hlt. discriminate (H t r Ht Hr).
  - apply lookup_lt_Some in Ht. rewrite length_app in Ht. simpl in Ht.
    f_equal. lia.
Qed.

Lemma live_only_closed (t : TransportId) (l : list ReadyState) :
  live_only (Some t) l -> live_only None (<[t := CLOSED]> l).
Proof.
  intros H t' r Ht' Hr.
  destruct (decide (t = t')) as [->|Hne].
  - assert (Hlt : (t' < length l)%nat).
    { apply lookup_lt_Some in Ht'. rewrite length_insert in Ht'. exact Ht'. }
    rewrite list_lookup_insert_eq in Ht' by exact Hlt. congruence.
  - rewrite list_lookup_insert_ne in Ht' by exact Hne.
    specialize (H t' r Ht' Hr). congruence.
Qed.

Lemma live_only_update (t : TransportId) (r : ReadyState) (l : list ReadyState) :
  live_only (Some t) l -> live_only (Some t) (<[t := r]> l).
Proof.
  intros H t' r' Ht' Hr.
  destruct (decide (t = t')) as [->|Hne]; [reflexivity|].
  rewrite list_lookup_insert_ne in Ht' by exact Hne. exact (H t' r' Ht' Hr).
Qed.

(** ** Running the methods symbolically *)

Ltac open_world w :=
  destruct w as [[u sock st opts att tid flag] [em con socks wr tms nt clk]].

Ltac exec :=
  cbv beta iota zeta delta
    [run_in returns connect disconnect sendMessage handleOpen handleMessage
     handleClose handleError reconnectTimerCallback scheduleReconnect
     clearReconnectTimer isConnected getState
     bind ret throw try_catch gets update on_host emit console_log console_warn
     console_error newWebSocket ws_close ws_send setTimeout clearTimeout
     set_ready dequeue
     with_ws with_state with_reconnectAttempts with_reconnectTimeoutId
     with_isReconnectingAttempt with_emitted with_console with_sockets
     with_wire with_timers with_now
     this host url ws state reconnectOptions reconnectAttempts
     reconnectTimeoutId isReconnectingAttempt
     emitted console sockets wire timers nextTimer now
     retries delay increaseDelay ready_of
     WebSocketState.eqb isSome orb andb negb fst snd] in *.

Lemma timers_single (tms : list Timer) (id : TimerId) :
  map timer_id tms = [id] -> exists tm, tms = [tm] /\ timer_id tm = id.
Proof.
  destruct tms as [|tm [|? ?]]; simpl; intros H; try discriminate.
  exists tm. split; [reflexivity | congruence].
Qed.

Lemma timers_none (tms : list Timer) : map timer_id tms = [] -> tms = [].
Proof. destruct tms; simpl; [reflexivity | discriminate]. Qed.

Lemma cancel_single (tm : Timer) : cancel (timer_id tm) [tm] = [].
Proof. unfold cancel. simpl. rewrite Nat.eqb_refl. reflexivity. Qed.

Ltac split_policy opts att :=
  let r := fresh "r" in let d := fresh "d" in let inc := fresh "inc" in
  let Hge := fresh "Hge" in
  destruct opts as [[r d inc]|]; [destruct (att >=? r)%Z eqn:Hge|].

Ltac exec_all := exec; repeat (match goal with H : (_ >=? _)%Z = _ |- _ => rewrite H end; exec).

Lemma lookup_new (l : list ReadyState) (r : ReadyState) :
  (l ++ [r]) !! length l = Some r.
Proof. apply list_lookup_middle. reflexivity. Qed.

Lemma lookup_updated (l : list ReadyState) (t : TransportId) (r r' : ReadyState) :
  l !! t = Some r -> <[t := r']> l !! t = Some r'.
Proof. intros H. apply list_lookup_insert_eq. eapply lookup_lt_Some, H. Qed.

Ltac field_done :=
  first
    [ reflexivity
    | assumption
    | discriminate
    | lia
    | apply lookup_new
    | eapply lookup_updated; eassumption
    | apply live_only_new; assumption
    | apply live_only_closed; assumption
    | apply live_only_update; assumption
    | intros; split; reflexivity
    | intros; discriminate
    | intros; congruence
    | solve [auto] ].

Ltac consistent_done :=
  constructor; exec; rewrite ?cancel_single; simpl; field_done.

Ltac open_consistent H :=
  let H1 := fresh "Hpresent" in let H2 := fresh "Hready" in
  let H3 := fresh "Honly" in let H4 := fresh "Hqueue" in
  let H5 := fresh "Hpending" in let H6 := fresh "Hflag" in
  let H7 := fresh "Hnonneg" in let H8 := fresh "Hrest" in
  let H9 := fresh "Hpolicy" in
  destruct H as [H1 H2 H3 H4 H5 H6 H7 H8 H9]; exec;
  match type of H4 with
  | map timer_id _ = [_] => apply timers_single in H4 as (?tm & -> & <-)
  | map timer_id _ = [] => apply timers_none in H4 as ->
  | _ => idtac
  end.

Ltac cases_of_world w H :=
  let u := fresh "u" in let sock := fresh "sock" in let st := fresh "st" in
  let opts := fresh "opts" in let att := fresh "att" in
  let tid := fresh "tid" in let flag := fresh "flag" in
  let em := fresh "em" in let con := fresh "con" in
  let socks := fresh "socks" in let wr := fresh "wr" in
  let tms := fresh "tms" in let nt := fresh "nt" in let clk := fresh "clk" in
  destruct w as [[u sock st opts att tid flag] [em con socks wr tms nt clk]];
  destruct tid;
  open_consistent H;
  split_policy opts att;
  destruct st, sock;
  exec_all; try discriminate.

(** ** Every task of the event loop keeps the fields consistent *)

Lemma connect_consistent ctor w :
  consistent w -> consistent (run_in (connect ctor) w).
Proof.
  intros H. cases_of_world w H; destruct ctor; exec_all.
  all: consistent_done.
Qed.

Lemma disconnect_consistent w :
  consistent w -> consistent (run_in disconnect w).
Proof.
  intros H. cases_of_world w H.
  all: try (rewrite Hready; exec).
  all: consistent_done.
Qed.

Lemma sendMessage_consistent outcome data w :
  consistent w -> consistent (run_in (sendMessage outcome data) w).
Proof.
  intros H. cases_of_world w H; destruct outcome; exec_all; consistent_done.
Qed.

Lemma handleMessage_consistent data w :
  consistent w -> consistent (run_in (handleMessage data) w).
Proof. intros H. cases_of_world w H; consistent_done. Qed.

Lemma handleError_consistent event w :
  consistent w -> consistent (run_in (handleError event) w).
Proof. intros H. cases_of_world w H; consistent_done. Qed.

(** A socket that can still dispatch is the client's, and the client is in
    the state that goes with the socket's [readyState]. *)
Lemma dispatching_socket t r w :
  consistent w -> sockets (host w) !! t = Some r -> r <> CLOSED ->
  ws (this w) = Some t /\ ready_of (state (this w)) = Some r.
Proof.
  intros H Ht Hr. pose proof (ws_only w H t r Ht Hr) as Hws.
  split; [exact Hws|]. pose proof (ws_ready w H) as Hrd.
  rewrite Hws in Hrd. congruence.
Qed.

Lemma handleOpen_consistent t w :
  consistent w -> sockets (host w) !! t = Some CONNECTING ->
  consistent (run_in handleOpen (set_ready t OPEN w)).
Proof.
  intros H Ht.
  destruct (dispatching_socket t CONNECTING w H Ht) as [Hws Hst]; [discriminate|].
  cases_of_world w H; simpl in Hws, Hst, Ht; try discriminate.
  all: injection Hws as ->; destruct flag; exec_all; consistent_done.
Qed.

Lemma handleClose_consistent t r event w :
  consistent w -> sockets (host w) !! t = Some r -> r <> CLOSED ->
  consistent (run_in (handleClose event) (set_ready t CLOSED w)).
Proof.
  intros H Ht Hr.
  destruct (dispatching_socket t r w H Ht Hr) as [Hws Hst].
  cases_of_world w H; simpl in Hws, Hst, Ht; try discriminate.
  all: injection Hws as ->; consistent_done.
Qed.

Lemma find_single id tm tm' :
  find_timer id [tm] = Some tm' -> tm' = tm /\ timer_id tm = id.
Proof.
  unfold find_timer. simpl. destruct (Nat.eqb_spec (timer_id tm) id); [|discriminate].
  intros [= <-]. split; [reflexivity | assumption].
Qed.

Lemma reconnectTimerCallback_consistent id ctor tm w :
  consistent w -> find_timer id (timers (host w)) = Some tm ->
  consistent (run_in (reconnectTimerCallback ctor) (dequeue id w)).
Proof.
  intros H Hfind.
  cases_of_world w H; simpl in Hfind; try discriminate.
  all: apply find_single in Hfind as [-> <-]; rewrite cancel_single.
  all: destruct ctor; exec_all; consistent_done.
Qed.

Lemma step_consistent i w w' :
  consistent w -> step i w = Some w' -> consistent w'.
Proof.
  intros H Hstep.
  destruct i as [ctor| |outcome data|t|t data|t event|t event|ms|id ctor];
    simpl in Hstep.
  - injection Hstep as <-. apply connect_consistent, H.
  - injection Hstep as <-. apply disconnect_consistent, H.
  - injection Hstep as <-. apply sendMessage_consistent, H.
  - destruct (sockets (host w) !! t) as [[]|] eqn:Ht; try discriminate.
    injection Hstep as <-. apply handleOpen_consistent; assumption.
  - destruct (sockets (host w) !! t) as [[]|] eqn:Ht; try discriminate;
      injection Hstep as <-; apply handleMessage_consistent, H.
  - destruct (sockets (host w) !! t) as [[]|] eqn:Ht; try discriminate;
      injection Hstep as <-; apply handleError_consistent, H.
  - destruct (sockets (host w) !! t) as [[]|] eqn:Ht; try discriminate;
      injection Hstep as <-; eapply handleClose_consistent; eauto; discriminate.
  - destruct (0 <=? ms)%Z; [|discriminate]. injection Hstep as <-.
    destruct H. destruct w as [c h]. constructor; assumption.
  - destruct (find_timer id (timers (host w))) as [tm|] eqn:Hfind; [|discriminate].
    destruct (timer_due tm <=? now (host w))%Z; [|discriminate].
    injection Hstep as <-. eapply reconnectTimerCallback_consistent; eassumption.
Qed.

Lemma initial_consistent url opts : consistent (initial url opts).
Proof.
  constructor; simpl; try reflexivity; try lia; discriminate.
Qed.

Lemma run_consistent tr w w' :
  consistent w -> run tr w = Some w' -> consistent w'.
Proof.
  revert w. induction tr as [|i tr IH]; intros w H Hrun; simpl in Hrun.
  - injection Hrun as <-. exact H.
  - destruct (step i w) as [w1|] eqn:Hstep; [|discriminate].
    eapply IH; [eapply step_consistent; eassumption | exact Hrun].
Qed.

Lemma reachable_consistent w : reachable w -> consistent w.
Proof.
  intros (url & opts & tr & Hrun).
  eapply run_consistent; [apply initial_consistent | exact Hrun].
Qed.

(** ** [connect] while a connection is in progress *)

(** C8: in the states Connecting, Connected and Disconnecting, [connect()]
    returns at once and leaves the whole world as it was: no socket is
    constructed, nothing is emitted or logged, and the state, the attempt
    counter, the reconnect flag and the pending timer are unchanged. *)
Theorem connect_is_noop_while_busy (w : World) (ctor : option JsValue) :
  state (this w) = Connecting \/ state (this w) = Connected
  \/ state (this w) = Disconnecting ->
  run_in (connect ctor) w = w /\ returns (connect ctor) w = true.
Proof.
  intros Hst. destruct w as [[u sock st opts att tid flag] h].
  simpl in Hst. destruct Hst as [-> | [-> | ->]]; split; reflexivity.
Qed.

Lemma connect_is_noop_while_busy_witness :
  run_in (connect None) (run_in (connect None) (initial "ws://localhost:1234" None))
  = run_in (connect None) (initial "ws://localhost:1234" None)
  /\ returns (connect None)
       (run_in (connect None) (initial "ws://localhost:1234" None)) = true.
Proof. apply connect_is_noop_while_busy. left. reflexivity. Defined.

(** ** The delay of a retry *)

(** C9: when the scheduler goes ahead with attempt number [k] (the counter
    stood at [k - 1], below [retries]), the timer it creates has delay
    [delay * k] if [increaseDelay] is set and [delay] otherwise, so [50 * k]
    for a growing delay of 50; the Reconnecting event carries [k]. *)
Theorem retry_delay_is_linear (w : World) (o : ReconnectOptions) (k : Z) :
  reconnectOptions (this w) = Some o ->
  reconnectTimeoutId (this w) = None ->
  state (this w) <> Disconnecting ->
  1 <= k ->
  reconnectAttempts (this w) = k - 1 ->
  k <= retries o ->
  let w' := run_in scheduleReconnect w in
  let ms := if increaseDelay o then delay o * k else delay o in
  timers (host w') =
    timers (host w) ++ [mkTimer (nextTimer (host w)) ms (now (host w) + Z.max 0 ms)]
  /\ reconnectTimeoutId (this w') = Some (nextTimer (host w))
  /\ emitted (host w') = emitted (host w) ++ [WebSocketEvents.Reconnecting k]
  /\ reconnectAttempts (this w') = k
  /\ (increaseDelay o = true -> delay o = 50 -> ms = 50 * k).
Proof.
  intros Hopts Htid Hst Hk Hatt Hle.
  destruct w as [[u sock st opts att tid flag] [em con socks wr tms nt clk]].
  simpl in Hopts, Htid, Hst, Hatt. subst opts tid att.
  assert (Hge : (k - 1 >=? retries o) = false) by (rewrite Z.geb_leb; lia).
  destruct o as [r d inc]. simpl in Hge, Hle.
  assert (Hk' : k - 1 + 1 = k) by lia.
  destruct st; try congruence; exec; rewrite Hge; exec; rewrite Hk';
    unfold currentDelay; simpl; (repeat split; try reflexivity);
    intros -> ->; reflexivity.
Qed.

Lemma retry_delay_is_linear_witness :
  let w := mkWorld (mkClient "ws://localhost:1234" None Idle
                      (Some (mkReconnectOptions 5 50 true)) 2 None false)
                   initial_host in
  timers (host (run_in scheduleReconnect w)) = [mkTimer 1%nat 150 150].
Proof.
  intros w.
  exact (proj1 (retry_delay_is_linear w (mkReconnectOptions 5 50 true) 3
                  eq_refl eq_refl ltac:(discriminate) ltac:(lia) eq_refl ltac:(simpl; lia))).
Defined.

(** ** Sending *)

(** The only trace [sendMessage] leaves when it refuses: one warning. *)
Lemma sendMessage_refused (w : World) (outcome : option JsValue) (data : Payload) :
  state (this w) <> Connected ->
  run_in (sendMessage outcome data) w =
    mkWorld (this w)
      (with_console
         (console (host w) ++
          [(WARN, "[WebSocketClient] Cannot send message. Not connected.")])
         (host w)).
Proof.
  intros Hst. destruct w as [[u sock st opts att tid flag] h]. simpl in Hst.
  destruct st, sock; try congruence; reflexivity.
Qed.

(** C7: outside the state Connected, [sendMessage] only warns: the client's
    fields, the frames handed to sockets, the sockets, the timers and the
    emitted events are as before, and the call returns.  In the state
    Connected, a [send] that throws yields exactly one Error event, carrying
    what was thrown; the client's fields are unchanged, nothing went out,
    and the call returns. *)
Theorem sendMessage_guarded :
  (forall (w : World) (outcome : option JsValue) (data : Payload),
      state (this w) <> Connected ->
      let w' := run_in (sendMessage outcome data) w in
      this w' = this w
      /\ wire (host w') = wire (host w)
      /\ emitted (host w') = emitted (host w)
      /\ sockets (host w') = sockets (host w)
      /\ timers (host w') = timers (host w)
      /\ console (host w') =
           console (host w) ++
           [(WARN, "[WebSocketClient] Cannot send message. Not connected.")]
      /\ returns (sendMessage outcome data) w = true)
  /\
  (forall (w : World) (e : JsValue) (data : Payload),
      reachable w ->
      state (this w) = Connected ->
      let w' := run_in (sendMessage (Some e) data) w in
      this w' = this w
      /\ emitted (host w') = emitted (host w) ++ [WebSocketEvents.Error e]
      /\ wire (host w') = wire (host w)
      /\ sockets (host w') = sockets (host w)
      /\ timers (host w') = timers (host w)
      /\ returns (sendMessage (Some e) data) w = true).
Proof.
  split.
  - intros w outcome data Hst w'. subst w'.
    rewrite (sendMessage_refused w outcome data Hst).
    destruct w as [[u sock st opts att tid flag] h]. simpl in Hst.
    destruct st, sock; try congruence; repeat split; reflexivity.
  - intros w e data Hreach Hst w'. subst w'.
    apply reachable_consistent in Hreach.
    pose proof (ws_present w Hreach) as Hws.
    destruct w as [[u sock st opts att tid flag] h]. simpl in Hst, Hws.
    subst st. destruct sock; [|discriminate]. repeat split; reflexivity.
Qed.

Lemma sendMessage_guarded_witness :
  emitted (host (run_in (sendMessage None (Text "ping"))
                   (initial "ws://localhost:1234" None))) = []
  /\ emitted (host (run_in (sendMessage (Some "InvalidStateError") (Text "ping"))
                      (run_in handleOpen
                         (set_ready 0%nat OPEN
                            (run_in (connect None) (initial "ws://localhost:1234" None))))))
     = [WebSocketEvents.Connected; WebSocketEvents.Error "InvalidStateError"].
Proof.
  split.
  - apply (proj1 sendMessage_guarded (initial "ws://localhost:1234" None) None
             (Text "ping")).
    discriminate.
  - apply (proj2 sendMessage_guarded
             (run_in handleOpen
                (set_ready 0%nat OPEN
                   (run_in (connect None) (initial "ws://localhost:1234" None))))
             "InvalidStateError" (Text "ping")).
    + exists "ws://localhost:1234", None, [CallConnect None; OnOpen 0%nat].
      reflexivity.
    + reflexivity.
Defined.

(** ** Exceptions *)



(** ** State and socket *)

(** Runs of [step]: after any such run from a freshly constructed client,
    the state is one of the five values and [this.ws] is set exactly in the
    states Connecting, Connected and Disconnecting; it is [null] in Idle and
    in Reconnecting. *)
Lemma socket_iff_state
    (url : string) (opts : option ReconnectOptions) (tr : list Input) (w : World) :
  run tr (initial url opts) = Some w ->
  In (state (this w)) [Idle; Connecting; Connected; Reconnecting; Disconnecting]
  /\ (ws (this w) <> None <->
      In (state (this w)) [Connecting; Connected; Disconnecting])
  /\ (state (this w) = Idle \/ state (this w) = Reconnecting -> ws (this w) = None).
Proof.
  intros Hrun.
  assert (H : consistent w) by (apply reachable_consistent; exists url, opts, tr; exact Hrun).
  pose proof (ws_present w H) as Hp.
  destruct w as [[u sock st o att tid flag] h]. simpl in *.
  destruct st, sock; simpl in Hp; try discriminate; repeat split;
    simpl; try tauto; try congruence; intuition (try discriminate; try congruence).
Qed.

(** ** The retry timer *)

(** Runs of [step]: in every reachable world the host's queue holds at most one timer,
    and it is the one [this.reconnectTimeoutId] names.  [scheduleReconnect]
    creates no timer while one is outstanding.  A call of [connect] that
    goes ahead (from Idle, or from Reconnecting) and gets its socket has
    cancelled the timer the client held: the handle is cleared, the timer is
    out of the queue, and no timer was added. *)
Lemma at_most_one_timer :
  (forall w : World,
      reachable w ->
      (length (timers (host w)) <= 1)%nat
      /\ map timer_id (timers (host w)) =
         match reconnectTimeoutId (this w) with Some id => [id] | None => [] end)
  /\
  (forall w : World,
      reconnectTimeoutId (this w) <> None ->
      timers (host (run_in scheduleReconnect w)) = timers (host w)
      /\ nextTimer (host (run_in scheduleReconnect w)) = nextTimer (host w))
  /\
  (forall w : World,
      state (this w) = Idle \/ state (this w) = Reconnecting ->
      let w' := run_in (connect None) w in
      reconnectTimeoutId (this w') = None
      /\ timers (host w') =
         match reconnectTimeoutId (this w) with
         | Some id => cancel id (timers (host w))
         | None => timers (host w)
         end
      /\ (forall id, reconnectTimeoutId (this w) = Some id ->
                     ~ In id (map timer_id (timers (host w'))))
      /\ ws (this w') = Some (length (sockets (host w)))).
Proof.
  split; [|split].
  - intros w Hreach. apply reachable_consistent in Hreach.
    pose proof (timer_owned w Hreach) as Hq. split; [|exact Hq].
    rewrite <- (length_map timer_id), Hq.
    destruct (reconnectTimeoutId (this w)); simpl; lia.
  - intros w Htid.
    destruct w as [[u sock st opts att tid flag] [em con socks wr tms nt clk]].
    simpl in Htid. destruct tid; [|congruence].
    destruct opts; split; reflexivity.
  - intros w Hst w'. subst w'.
    destruct w as [[u sock st opts att tid flag] [em con socks wr tms nt clk]].
    simpl in Hst.
    assert (Hgone : forall id, ~ In id (map timer_id (cancel id tms))).
    { intros id Hin. apply in_map_iff in Hin as (tm & Hid & Hin).
      unfold cancel in Hin. apply filter_In in Hin as [_ Hneq].
      rewrite Hid, Nat.eqb_refl in Hneq. discriminate. }
    destruct Hst as [-> | ->]; destruct tid as [id|]; exec;
      (repeat split; try reflexivity); intros id' Hid'; try discriminate;
      injection Hid' as <-; apply Hgone.
Qed.

(** ** Sockets only move forward *)

Lemma moves_forward_refl s : moves_forward s s.
Proof. intros t r Ht. exists r. split; [exact Ht | auto]. Qed.

Lemma moves_forward_trans s1 s2 s3 :
  moves_forward s1 s2 -> moves_forward s2 s3 -> moves_forward s1 s3.
Proof.
  intros H12 H23 t r Ht.
  destruct (H12 t r Ht) as (r2 & Ht2 & Hr2).
  destruct (H23 t r2 Ht2) as (r3 & Ht3 & Hr3).
  exists r3. split; [exact Ht3 | auto].
Qed.

Lemma moves_forward_new s r : moves_forward s (s ++ [r]).
Proof.
  intros t r0 Ht. exists r0. split; [|auto].
  rewrite lookup_app_l; [exact Ht | eapply lookup_lt_Some, Ht].
Qed.

Lemma moves_forward_set s t r :
  r <> CONNECTING -> moves_forward s (<[t := r]> s).
Proof.
  intros Hr t' r' Ht'. destruct (decide (t = t')) as [->|Hne].
  - exists r. split; [eapply lookup_updated, Ht' | congruence].
  - exists r'. split; [|auto]. rewrite list_lookup_insert_ne by exact Hne. exact Ht'.
Qed.

Lemma closing_not_connecting r : closing r <> CONNECTING.
Proof. destruct r; discriminate. Qed.

Ltac forward_done :=
  first
    [ apply moves_forward_refl
    | apply moves_forward_new
    | apply moves_forward_set; first [discriminate | apply closing_not_connecting]
    | eapply moves_forward_trans;
      [apply moves_forward_set; discriminate | apply moves_forward_new]
    | eapply moves_forward_trans;
      [apply moves_forward_set; discriminate | apply moves_forward_refl] ].

Ltac cases_of_bare_world w :=
  let u := fresh "u" in let sock := fresh "sock" in let st := fresh "st" in
  let opts := fresh "opts" in let att := fresh "att" in
  let tid := fresh "tid" in let flag := fresh "flag" in
  let em := fresh "em" in let con := fresh "con" in
  let socks := fresh "socks" in let wr := fresh "wr" in
  let tms := fresh "tms" in let nt := fresh "nt" in let clk := fresh "clk" in
  destruct w as [[u sock st opts att tid flag] [em con socks wr tms nt clk]];
  split_policy opts att;
  destruct st, sock, tid, flag;
  exec_all.

Lemma step_moves_forward i w w' :
  step i w = Some w' -> moves_forward (sockets (host w)) (sockets (host w')).
Proof.
  intros Hstep.
  destruct i as [ctor| |outcome data|t|t data|t event|t event|ms|id ctor];
    simpl in Hstep.
  - injection Hstep as <-. destruct ctor; cases_of_bare_world w; forward_done.
  - injection Hstep as <-. cases_of_bare_world w; try forward_done.
    all: match goal with |- context [?s !! ?t] => destruct (s !! t) end;
      exec; forward_done.
  - injection Hstep as <-. destruct outcome; cases_of_bare_world w; forward_done.
  - destruct (sockets (host w) !! t) as [[]|]; try discriminate.
    injection Hstep as <-. cases_of_bare_world w; forward_done.
  - destruct (sockets (host w) !! t) as [[]|]; try discriminate;
      injection Hstep as <-; cases_of_bare_world w; forward_done.
  - destruct (sockets (host w) !! t) as [[]|]; try discriminate;
      injection Hstep as <-; cases_of_bare_world w; forward_done.
  - destruct (sockets (host w) !! t) as [[]|]; try discriminate;
      injection Hstep as <-; cases_of_bare_world w; forward_done.
  - destruct (0 <=? ms)%Z; [|discriminate]. injection Hstep as <-.
    apply moves_forward_refl.
  - destruct (find_timer id (timers (host w))) as [tm|]; [|discriminate].
    destruct (timer_due tm <=? now (host w))%Z; [|discriminate].
    injection Hstep as <-. destruct ctor; cases_of_bare_world w; forward_done.
Qed.

Lemma run_moves_forward tr w w' :
  run tr w = Some w' -> moves_forward (sockets (host w)) (sockets (host w')).
Proof.
  revert w. induction tr as [|i tr IH]; intros w Hrun; simpl in Hrun.
  - injection Hrun as <-. apply moves_forward_refl.
  - destruct (step i w) as [w1|] eqn:Hstep; [|discriminate].
    eapply moves_forward_trans; [eapply step_moves_forward, Hstep | apply IH, Hrun].
Qed.

(** ** The reconnect flag of an attempt in flight *)

Ltac contradict_ready :=
  match goal with
  | Hnow : ?s !! ?t = Some CONNECTING, Hafter : <[?t := ?r]> ?s !! ?t = Some CONNECTING |- _ =>
      rewrite (lookup_updated s t CONNECTING r Hnow) in Hafter; simpl in Hafter;
      discriminate
  end.

(** While the client's socket is still connecting, no task changes the
    reconnect flag. *)
Lemma connecting_step_flag t i w w' :
  consistent w ->
  sockets (host w) !! t = Some CONNECTING ->
  step i w = Some w' ->
  sockets (host w') !! t = Some CONNECTING ->
  isReconnectingAttempt (this w') = isReconnectingAttempt (this w).
Proof.
  intros H Ht Hstep Hafter.
  destruct (dispatching_socket t CONNECTING w H Ht) as [Hws Hst]; [discriminate|].
  destruct i as [ctor| |outcome data|t'|t' data|t' event|t' event|ms|id ctor];
    simpl in Hstep.
  - injection Hstep as <-. cases_of_world w H; simpl in Hws, Hst; try discriminate;
      reflexivity.
  - injection Hstep as <-. cases_of_world w H; simpl in Hws, Hst; try discriminate.
    all: injection Hws as ->; rewrite Hready in Hafter; exec.
    all: contradict_ready.
  - injection Hstep as <-. cases_of_world w H; simpl in Hws, Hst; try discriminate;
      reflexivity.
  - destruct (sockets (host w) !! t') as [[]|] eqn:Ht'; try discriminate.
    injection Hstep as <-.
    destruct (dispatching_socket t' CONNECTING w H Ht') as [Hws' _]; [discriminate|].
    assert (t' = t) as -> by congruence. revert Hafter.
    cases_of_world w H; simpl in Hws, Hst; try discriminate.
    all: destruct flag; exec; intros Hafter; contradict_ready.
  - destruct (sockets (host w) !! t') as [[]|] eqn:Ht'; try discriminate;
      injection Hstep as <-; cases_of_world w H; reflexivity.
  - destruct (sockets (host w) !! t') as [[]|] eqn:Ht'; try discriminate;
      injection Hstep as <-; cases_of_world w H; reflexivity.
  - destruct (sockets (host w) !! t') as [r|] eqn:Ht'; [|discriminate].
    assert (Hr : r <> CLOSED) by (intros ->; discriminate).
    destruct (dispatching_socket t' r w H Ht' Hr) as [Hws' _].
    assert (t' = t) as -> by congruence.
    assert (r = CONNECTING) as -> by congruence.
    injection Hstep as <-. revert Hafter.
    cases_of_world w H; simpl in Hws, Hst; try discriminate.
    all: intros Hafter; contradict_ready.
  - destruct (0 <=? ms)%Z; [|discriminate]. injection Hstep as <-. reflexivity.
  - pose proof (timer_owned w H) as Hq. pose proof (timer_state w H) as Hp.
    destruct (find_timer id (timers (host w))) as [tm|] eqn:Hfind; [|discriminate].
    exfalso. cases_of_world w H; simpl in Hws, Hst, Hfind; discriminate.
Qed.

Lemma reconnections_app l l' :
  reconnections (l ++ l') = (reconnections l + reconnections l')%nat.
Proof. unfold reconnections. rewrite List.filter_app, length_app. reflexivity. Qed.

(** While the client's socket is still connecting, no task emits
    Reconnected. *)
Lemma connecting_step_quiet t i w w' :
  consistent w ->
  sockets (host w) !! t = Some CONNECTING ->
  step i w = Some w' ->
  sockets (host w') !! t = Some CONNECTING ->
  reconnections (emitted (host w')) = reconnections (emitted (host w)).
Proof.
  intros H Ht Hstep Hafter.
  destruct (dispatching_socket t CONNECTING w H Ht) as [Hws Hst]; [discriminate|].
  destruct i as [ctor| |outcome data|t'|t' data|t' event|t' event|ms|id ctor];
    simpl in Hstep.
  - injection Hstep as <-. cases_of_world w H; simpl in Hws, Hst; try discriminate;
      reflexivity.
  - injection Hstep as <-. cases_of_world w H; simpl in Hws, Hst; try discriminate.
    all: injection Hws as ->; rewrite Hready in Hafter; exec.
    all: contradict_ready.
  - injection Hstep as <-. cases_of_world w H; simpl in Hws, Hst; try discriminate;
      reflexivity.
  - destruct (sockets (host w) !! t') as [[]|] eqn:Ht'; try discriminate.
    injection Hstep as <-.
    destruct (dispatching_socket t' CONNECTING w H Ht') as [Hws' _]; [discriminate|].
    assert (t' = t) as -> by congruence. revert Hafter.
    cases_of_world w H; simpl in Hws, Hst; try discriminate.
    all: destruct flag; exec; intros Hafter; contradict_ready.
  - destruct (sockets (host w) !! t') as [[]|] eqn:Ht'; try discriminate;
      injection Hstep as <-; cases_of_world w H;
      rewrite reconnections_app; unfold reconnections; simpl; lia.
  - destruct (sockets (host w) !! t') as [[]|] eqn:Ht'; try discriminate;
      injection Hstep as <-; cases_of_world w H;
      rewrite reconnections_app; unfold reconnections; simpl; lia.
  - destruct (sockets (host w) !! t') as [r|] eqn:Ht'; [|discriminate].
    assert (Hr : r <> CLOSED) by (intros ->; discriminate).
    destruct (dispatching_socket t' r w H Ht' Hr) as [Hws' _].
    assert (t' = t) as -> by congruence.
    assert (r = CONNECTING) as -> by congruence.
    injection Hstep as <-. revert Hafter.
    cases_of_world w H; simpl in Hws, Hst; try discriminate.
    all: intros Hafter; contradict_ready.
  - destruct (0 <=? ms)%Z; [|discriminate]. injection Hstep as <-. reflexivity.
  - pose proof (timer_owned w H) as Hq. pose proof (timer_state w H) as Hp.
    destruct (find_timer id (timers (host w))) as [tm|] eqn:Hfind; [|discriminate].
    exfalso. cases_of_world w H; simpl in Hws, Hst, Hfind; discriminate.
Qed.

(** The same along a whole run: if the socket is still connecting at the
    end, the flag is what it was and no Reconnected was emitted. *)
Lemma attempt_in_flight tr : forall t w w',
  consistent w ->
  sockets (host w) !! t = Some CONNECTING ->
  run tr w = Some w' ->
  sockets (host w') !! t = Some CONNECTING ->
  isReconnectingAttempt (this w') = isReconnectingAttempt (this w)
  /\ reconnections (emitted (host w')) = reconnections (emitted (host w)).
Proof.
  induction tr as [|i tr IH]; intros t w w' H Ht Hrun Hafter; simpl in Hrun.
  - injection Hrun as <-. split; reflexivity.
  - destruct (step i w) as [w1|] eqn:Hstep; [|discriminate].
    destruct (step_moves_forward i w w1 Hstep t CONNECTING Ht) as (r1 & Ht1 & _).
    destruct (run_moves_forward tr w1 w' Hrun t r1 Ht1) as (r' & Ht' & Hback).
    assert (r' = CONNECTING) by congruence. subst r'.
    rewrite (Hback eq_refl) in Ht1.
    destruct (IH t w1 w' (step_consistent i w w1 H Hstep) Ht1 Hrun Hafter) as [Hf Hc].
    rewrite Hf, Hc. split.
    + eapply connecting_step_flag; eassumption.
    + eapply connecting_step_quiet; eassumption.
Qed.

(** What an [open] event makes the client emit. *)
Lemma open_emits t w w' :
  step (OnOpen t) w = Some w' ->
  emitted (host w') =
    emitted (host w) ++
    (if isReconnectingAttempt (this w)
     then [WebSocketEvents.Reconnected; WebSocketEvents.Connected]
     else [WebSocketEvents.Connected]).
Proof.
  simpl. destruct (sockets (host w) !! t) as [[]|]; try discriminate.
  intros [= <-].
  destruct w as [[u sock st opts att tid flag] [em con socks wr tms nt clk]].
  destruct flag; exec; [rewrite <- app_assoc|]; reflexivity.
Qed.

Lemma open_after_flagged_attempt t tr w1 w2 w3 :
  consistent w1 ->
  sockets (host w1) !! t = Some CONNECTING ->
  isReconnectingAttempt (this w1) = true ->
  run tr w1 = Some w2 ->
  step (OnOpen t) w2 = Some w3 ->
  emitted (host w3) =
    emitted (host w2) ++ [WebSocketEvents.Reconnected; WebSocketEvents.Connected]
  /\ reconnections (emitted (host w3)) = S (reconnections (emitted (host w1))).
Proof.
  intros H Ht Hflag Hrun Hopen.
  assert (Ht2 : sockets (host w2) !! t = Some CONNECTING).
  { simpl in Hopen. destruct (sockets (host w2) !! t) as [[]|]; try discriminate.
    reflexivity. }
  destruct (attempt_in_flight tr t w1 w2 H Ht Hrun Ht2) as [Hf Hc].
  rewrite (open_emits t w2 w3 Hopen), Hf, Hflag. split; [reflexivity|].
  rewrite reconnections_app, Hc. unfold reconnections. simpl. lia.
Qed.

(** ** A manual [connect] during the retry delay *)

(** Runs of [step]: in a reachable world in state Reconnecting a retry timer is
    pending.  A [connect()] called then is not a no-op: it cancels the
    timer, constructs a socket and moves to Connecting, and it leaves the
    reconnect flag set.  So when that socket opens, whatever happened in
    between, Reconnected is emitted immediately before Connected. *)
Lemma manual_connect_while_reconnecting (w : World) :
  reachable w ->
  state (this w) = Reconnecting ->
  let w1 := run_in (connect None) w in
  let t := length (sockets (host w)) in
  (exists tm, timers (host w) = [tm]
              /\ reconnectTimeoutId (this w) = Some (timer_id tm))
  /\ timers (host w1) = []
  /\ reconnectTimeoutId (this w1) = None
  /\ sockets (host w1) = sockets (host w) ++ [CONNECTING]
  /\ ws (this w1) = Some t
  /\ state (this w1) = Connecting
  /\ isReconnectingAttempt (this w1) = true
  /\ (forall tr w2 w3,
        run tr w1 = Some w2 ->
        step (OnOpen t) w2 = Some w3 ->
        emitted (host w3) =
          emitted (host w2) ++
          [WebSocketEvents.Reconnected; WebSocketEvents.Connected]).
Proof.
  intros Hreach Hst w1 t. subst w1 t.
  apply reachable_consistent in Hreach.
  assert (H1 : consistent (run_in (connect None) w))
    by (apply connect_consistent, Hreach).
  assert (Hfacts :
    (exists tm, timers (host w) = [tm]
                /\ reconnectTimeoutId (this w) = Some (timer_id tm))
    /\ timers (host (run_in (connect None) w)) = []
    /\ reconnectTimeoutId (this (run_in (connect None) w)) = None
    /\ sockets (host (run_in (connect None) w)) = sockets (host w) ++ [CONNECTING]
    /\ ws (this (run_in (connect None) w)) = Some (length (sockets (host w)))
    /\ state (this (run_in (connect None) w)) = Connecting
    /\ isReconnectingAttempt (this (run_in (connect None) w)) = true).
  { clear H1. cases_of_world w Hreach; simpl in Hst; try discriminate.
    all: destruct (Hflag eq_refl) as [-> _]; rewrite ?cancel_single.
    all: split; [eexists; split; reflexivity | repeat split; reflexivity]. }
  destruct Hfacts as (Htm & Htms & Htid & Hsocks & Hws & Hst1 & Hflag1).
  repeat (split; [assumption|]).
  intros tr w2 w3 Hrun Hopen.
  refine (proj1 (open_after_flagged_attempt _ tr _ w2 w3 H1 _ Hflag1 Hrun Hopen)).
  rewrite Hsocks. apply lookup_new.
Qed.

(** ** Reconnected and Connected *)






(** ** Retries that fail *)

Lemma run_app tr1 tr2 w :
  run (tr1 ++ tr2) w =
  match run tr1 w with Some w1 => run tr2 w1 | None => None end.
Proof.
  revert w. induction tr1 as [|i tr1 IH]; intros w; simpl; [reflexivity|].
  destruct (step i w); [apply IH | reflexivity].
Qed.

(** [error] events change nothing but the console and what was emitted. *)
Lemma run_errors t errors : forall w r,
  sockets (host w) !! t = Some r -> r <> CLOSED ->
  exists w',
    run (map (OnError t) errors) w = Some w'
    /\ this w' = this w
    /\ emitted (host w') =
         emitted (host w) ++ map (fun a => WebSocketEvents.Error (error_of a)) errors
    /\ sockets (host w') = sockets (host w)
    /\ timers (host w') = timers (host w)
    /\ nextTimer (host w') = nextTimer (host w)
    /\ now (host w') = now (host w).
Proof.
  induction errors as [|a errors IH]; intros w r Ht Hr; simpl.
  - exists w. rewrite app_nil_r. repeat split; reflexivity.
  - rewrite Ht.
    assert (Hstep : match r with
                    | CLOSED => None
                    | _ => Some (run_in (handleError a) w)
                    end = Some (run_in (handleError a) w))
      by (destruct r; congruence).
    rewrite Hstep.
    destruct (IH (run_in (handleError a) w) r) as (w' & Hrun & Hthis & Hem & Hs & Htm & Hnt & Hnow).
    { destruct w as [c h]. exact Ht. }
    { exact Hr. }
    exists w'. split; [exact Hrun|].
    rewrite Hthis, Hem, Hs, Htm, Hnt, Hnow.
    destruct w as [c [em con socks wr tms nt clk]]. simpl.
    rewrite <- app_assoc. repeat split; reflexivity.
Qed.

Lemma insert_new (l : list ReadyState) (r r' : ReadyState) :
  <[length l := r']> (l ++ [r]) = l ++ [r'].
Proof. induction l as [|x l IH]; simpl; [reflexivity | f_equal; exact IH]. Qed.

(** As [exec], but [scheduleReconnect] is left folded. *)
Ltac exec_to_scheduler :=
  cbv beta iota zeta delta
    [run_in connect handleClose reconnectTimerCallback
     bind ret throw try_catch gets update on_host emit console_log console_warn
     console_error newWebSocket clearTimeout set_ready dequeue
     with_ws with_state with_reconnectAttempts with_reconnectTimeoutId
     with_isReconnectingAttempt with_emitted with_console with_sockets
     with_wire with_timers with_now
     this host url ws state reconnectOptions reconnectAttempts
     reconnectTimeoutId isReconnectingAttempt
     emitted console sockets wire timers nextTimer now
     WebSocketState.eqb isSome orb andb negb fst snd].

(** A failed retry, whichever way it fails, ends in [scheduleReconnect]
    run from a world [mid] in which the client is Idle without socket or
    timer, the attempt counter is as before and the events of the failure
    have been emitted. *)
Lemma failed_retry_run (w : World) (o : ReconnectOptions) (tm : Timer)
    (wait : Z) (f : Failure) :
  state (this w) = Reconnecting ->
  ws (this w) = None ->
  reconnectOptions (this w) = Some o ->
  reconnectTimeoutId (this w) = Some (timer_id tm) ->
  timers (host w) = [tm] ->
  0 <= wait ->
  timer_due tm <= now (host w) + wait ->
  exists mid,
    run (failed_retry (timer_id tm) (length (sockets (host w))) wait f) w
    = Some (run_in scheduleReconnect mid)
    /\ state (this mid) = Idle
    /\ ws (this mid) = None
    /\ reconnectOptions (this mid) = Some o
    /\ reconnectAttempts (this mid) = reconnectAttempts (this w)
    /\ reconnectTimeoutId (this mid) = None
    /\ emitted (host mid) = emitted (host w) ++ failure_events f
    /\ sockets (host mid) = sockets (host w) ++ repeat CLOSED (sockets_built f)
    /\ timers (host mid) = []
    /\ nextTimer (host mid) = nextTimer (host w)
    /\ now (host mid) = now (host w) + wait.
Proof.
  intros Hst Hws Hopts Htid Htms Hwait Hdue.
  destruct w as [[u sock st opts att tid flag] [em con socks wr tms nt clk]].
  simpl in Hst, Hws, Hopts, Htid, Htms, Hdue. subst st sock opts tid tms.
  apply Z.leb_le in Hwait, Hdue.
  unfold failed_retry.
  destruct f as [e | errors event].
  - simpl. rewrite Hwait. simpl. unfold find_timer. simpl.
    rewrite Nat.eqb_refl, Hdue.
    unfold dequeue. simpl. rewrite Nat.eqb_refl. simpl.
    eexists. split; [reflexivity|].
    simpl. rewrite app_nil_r. repeat split; reflexivity.
  - simpl run. simpl step. rewrite Hwait. simpl. unfold find_timer. simpl.
    rewrite Nat.eqb_refl, Hdue.
    unfold dequeue. simpl. rewrite Nat.eqb_refl. simpl.
    rewrite run_app.
    match goal with
    | |- context [run (map (OnError ?t) errors) ?w0] =>
        destruct (run_errors t errors w0 CONNECTING)
          as (w' & -> & Hthis & Hem & Hs & Htm0 & Hnt & Hnow)
    end.
    { exec. apply lookup_new. }
    { discriminate. }
    destruct w' as [c' [em' con' socks' wr' tms' nt' clk']].
    exec_to_scheduler. simpl in Hthis, Hem, Hs, Htm0, Hnt, Hnow.
    subst c' em' socks' tms' nt' clk'.
    simpl run. simpl step. exec_to_scheduler. rewrite lookup_new.
    exec_to_scheduler. rewrite insert_new.
    eexists. split; [reflexivity|].
    simpl. rewrite <- app_assoc. repeat split; reflexivity.
Qed.

Lemma reconnecting_attempts_app l l' :
  reconnecting_attempts (l ++ l') = reconnecting_attempts l ++ reconnecting_attempts l'.
Proof.
  induction l as [|e l IH]; simpl; [reflexivity|].
  destruct e; simpl; rewrite IH; reflexivity.
Qed.

Lemma failure_events_no_reconnecting f :
  reconnecting_attempts (failure_events f) = [].
Proof.
  destruct f as [e | errors event]; simpl; [reflexivity|].
  rewrite reconnecting_attempts_app. simpl. rewrite app_nil_r.
  induction errors as [|a errors IH]; simpl; [reflexivity | exact IH].
Qed.

Ltac decide_geb :=
  match goal with
  | |- context [(?a >=? ?b)%Z] =>
      let v := eval vm_compute in (a >=? b)%Z in
      match v with
      | true => change (a >=? b)%Z with true
      | false => change (a >=? b)%Z with false
      end
  end.

Ltac exec_closed := exec; repeat (decide_geb; exec); simpl Z.add.

Lemma run_cons i tr w :
  run (i :: tr) w =
  match step i w with Some w1 => run tr w1 | None => None end.
Proof. reflexivity. Qed.

(** C3: retry policy [{retries: 2, delay: 50, increaseDelay: false}].  From
    any reachable world in state Connected, let the socket drop and let
    both retries fail, each in either way, each timer firing once its 50 ms
    have passed.  The run is possible, and what is emitted is: Disconnected,
    Reconnecting 1, the events of the first failure, Reconnecting 2, the
    events of the second failure, and nothing after them.  So Reconnecting
    was emitted exactly twice, with 1 and then 2.  The client ends Idle,
    without socket, with the attempt counter at zero and the reconnect flag
    cleared, and no timer is left to fire. *)
Theorem gives_up_after_two_retries
    (w : World) (t : TransportId) (drop : CloseEvent)
    (f1 f2 : Failure) (d1 d2 : Z) :
  reachable w ->
  reconnectOptions (this w) = Some (mkReconnectOptions 2 50 false) ->
  state (this w) = Connected ->
  ws (this w) = Some t ->
  50 <= d1 ->
  50 <= d2 ->
  let n := length (sockets (host w)) in
  let id := nextTimer (host w) in
  exists w',
    run (OnClose t drop ::
         failed_retry id n d1 f1 ++
         failed_retry (S id) (n + sockets_built f1) d2 f2) w = Some w'
    /\ emitted (host w') =
         emitted (host w)
         ++ [WebSocketEvents.Disconnected (wasClean drop) (code drop);
             WebSocketEvents.Reconnecting 1]
         ++ failure_events f1
         ++ [WebSocketEvents.Reconnecting 2]
         ++ failure_events f2
    /\ reconnecting_attempts (emitted (host w')) =
         reconnecting_attempts (emitted (host w)) ++ [1; 2]
    /\ state (this w') = Idle
    /\ ws (this w') = None
    /\ reconnectAttempts (this w') = 0
    /\ isReconnectingAttempt (this w') = false
    /\ reconnectTimeoutId (this w') = None
    /\ timers (host w') = []
    /\ (forall id' ctor, step (TimerFires id' ctor) w' = None).
Proof.
  intros Hreach Hopts Hst Hws Hd1 Hd2 n id. subst n id.
  apply reachable_consistent in Hreach.
  pose proof (ws_ready w Hreach) as Hready.
  pose proof (timer_owned w Hreach) as Hq.
  pose proof (timer_state w Hreach) as Hp.
  pose proof (attempts_rest w Hreach) as Hatt.
  destruct w as [[u sock st opts att tid flag] [em con socks wr tms nt clk]].
  simpl in Hopts, Hst, Hws, Hready, Hq, Hp, Hatt.
  subst opts st sock. simpl in Hready, Hp, Hatt. subst att.
  destruct tid; [discriminate|]. apply timers_none in Hq as ->.
  (* the drop *)
  rewrite run_cons. simpl step. exec. rewrite Hready. exec_closed.
  (* first retry *)
  rewrite run_app.
  rewrite <- (length_insert socks t CLOSED).
  match goal with
  | |- context [run (failed_retry ?i (length ?s) d1 f1) ?w1] =>
      destruct (failed_retry_run w1 (mkReconnectOptions 2 50 false)
                  (mkTimer i 50 (clk + Z.max 0 50)) d1 f1)
        as (mid1 & Hrun1 & Hst1 & Hws1 & Ho1 & Ha1 & Hid1 & Hem1 & Hs1 & Htm1 & Hnt1 & Hnow1);
        try reflexivity; try (simpl; lia)
  end.
  simpl timer_id in Hrun1. simpl sockets in Hrun1. rewrite Hrun1. clear Hrun1.
  destruct mid1 as [[u1 sock1 st1 opts1 att1 tid1 flag1] [em1 con1 socks1 wr1 tms1 nt1 clk1]].
  simpl in Hst1, Hws1, Ho1, Ha1, Hid1, Hem1, Hs1, Htm1, Hnt1, Hnow1.
  subst st1 sock1 opts1 att1 tid1 em1 socks1 tms1 nt1 clk1.
  exec_closed.
  (* second retry *)
  assert (Hlen : (length (<[t:=CLOSED]> socks) + sockets_built f1)%nat =
                 length (<[t:=CLOSED]> socks ++ repeat CLOSED (sockets_built f1)))
    by (rewrite length_app, repeat_length; reflexivity).
  rewrite Hlen.
  match goal with
  | |- context [run (failed_retry ?i (length ?s) d2 f2) ?w2] =>
      destruct (failed_retry_run w2 (mkReconnectOptions 2 50 false)
                  (mkTimer i 50 (clk + d1 + Z.max 0 50)) d2 f2)
        as (mid2 & Hrun2 & Hst2 & Hws2 & Ho2 & Ha2 & Hid2 & Hem2 & Hs2 & Htm2 & Hnt2 & Hnow2);
        try reflexivity; try (simpl; lia)
  end.
  simpl timer_id in Hrun2. simpl sockets in Hrun2. rewrite Hrun2. clear Hrun2.
  destruct mid2 as [[u2 sock2 st2 opts2 att2 tid2 flag2] [em2 con2 socks2 wr2 tms2 nt2 clk2]].
  simpl in Hst2, Hws2, Ho2, Ha2, Hid2, Hem2, Hs2, Htm2, Hnt2, Hnow2.
  subst st2 sock2 opts2 att2 tid2 em2 socks2 tms2 nt2 clk2.
  exec_closed.
  eexists. split; [reflexivity|]. exec.
  repeat split; try reflexivity.
  - repeat rewrite <- app_assoc. reflexivity.
  - repeat rewrite reconnecting_attempts_app.
    rewrite !failure_events_no_reconnecting. simpl.
    rewrite !app_nil_r, <- app_assoc. reflexivity.
Qed.

Lemma gives_up_after_two_retries_witness :
  let w := run_in handleOpen
             (set_ready 0%nat OPEN
                (run_in (connect None)
                   (initial "ws://localhost:1234"
                      (Some (mkReconnectOptions 2 50 false))))) in
  exists w',
    run (OnClose 0%nat (mkCloseEvent 1000 "" true) ::
         failed_retry 1%nat 1%nat 50
           (ClosesUnopened [PlainEvent] (mkCloseEvent 1006 "" false)) ++
         failed_retry 2%nat 2%nat 1000 (ConstructorThrows "SecurityError")) w
    = Some w'
    /\ reconnecting_attempts (emitted (host w')) = [1; 2]
    /\ state (this w') = Idle
    /\ timers (host w') = [].
Proof.
  intros w.
  destruct (gives_up_after_two_retries w 0%nat (mkCloseEvent 1000 "" true)
              (ClosesUnopened [PlainEvent] (mkCloseEvent 1006 "" false))
              (ConstructorThrows "SecurityError") 50 1000)
    as (w' & Hrun & _ & Hatt & Hst & _ & _ & _ & _ & Htm & _).
  - exists "ws://localhost:1234", (Some (mkReconnectOptions 2 50 false)),
      [CallConnect None; OnOpen 0%nat].
    vm_compute. reflexivity.
  - reflexivity.
  - reflexivity.
  - reflexivity.
  - lia.
  - lia.
  - exists w'. split; [exact Hrun|]. split; [exact Hatt|]. split; [exact Hst | exact Htm].
Defined.

(** ** [disconnect] during the retry delay *)

(** Without a socket [disconnect] only warns, whatever the state. *)
Lemma disconnect_without_socket (w : World) :
  ws (this w) = None ->
  run_in disconnect w =
    mkWorld (this w)
      (with_console
         (console (host w) ++
          [(WARN, "[WebSocketClient] Not connected or already disconnecting.")])
         (host w)).
Proof.
  intros Hws. destruct w as [[u sock st opts att tid flag] h]. simpl in Hws.
  subst sock. reflexivity.
Qed.

(** In a reachable world in state Reconnecting there is no socket, so
    [disconnect] only warns there: the client's fields and the timer queue
    are untouched. *)
Lemma disconnect_only_warns_while_reconnecting (w : World) :
  reachable w ->
  state (this w) = Reconnecting ->
  this (run_in disconnect w) = this w
  /\ timers (host (run_in disconnect w)) = timers (host w)
  /\ emitted (host (run_in disconnect w)) = emitted (host w).
Proof.
  intros Hreach Hst. apply reachable_consistent in Hreach.
  pose proof (ws_present w Hreach) as Hp. rewrite Hst in Hp. simpl in Hp.
  assert (Hws : ws (this w) = None) by (destruct (ws (this w)); [discriminate | reflexivity]).
  rewrite (disconnect_without_socket w Hws).
  destruct w as [c h]. split; [|split]; reflexivity.
Qed.

(** C1, on the code: a client with retry policy
    [{retries: 5, delay: 50, increaseDelay: false}] connects, its socket
    opens and then drops, so that it is Reconnecting with timer 1 due at 50.
    [disconnect()] called then finds [this.ws] null and returns after a
    warning: the state is still Reconnecting and the timer still pending.
    Once 50 ms have passed the timer fires and a second socket is
    constructed. *)
Theorem disconnect_ignored_while_reconnecting :
  exists w w1 w2,
    run [CallConnect None; OnOpen 0%nat; OnClose 0%nat (mkCloseEvent 1006 "" false)]
        (initial "ws://localhost:1234" (Some (mkReconnectOptions 5 50 false)))
    = Some w
    /\ state (this w) = Reconnecting
    /\ timers (host w) = [mkTimer 1%nat 50 50]
    /\ step CallDisconnect w = Some w1
    /\ state (this w1) = Reconnecting
    /\ reconnectTimeoutId (this w1) = Some 1%nat
    /\ timers (host w1) = [mkTimer 1%nat 50 50]
    /\ emitted (host w1) = emitted (host w)
    /\ run [Elapse 50; TimerFires 1%nat None] w1 = Some w2
    /\ state (this w2) = Connecting
    /\ ws (this w2) = Some 1%nat
    /\ sockets (host w2) = [CLOSED; CONNECTING].
Proof.
  pose (w0 := initial "ws://localhost:1234" (Some (mkReconnectOptions 5 50 false))).
  pose (w := run_in (handleClose (mkCloseEvent 1006 "" false))
               (set_ready 0%nat CLOSED
                  (run_in handleOpen (set_ready 0%nat OPEN (run_in (connect None) w0))))).
  pose (w1 := run_in disconnect w).
  pose (w2 := run_in (reconnectTimerCallback None)
                (dequeue 1%nat (mkWorld (this w1) (with_now 50 (host w1))))).
  exists w, w1, w2.
  repeat (split; [vm_compute; reflexivity|]). vm_compute. reflexivity.
Qed.

(** * More of the class *)

(** ** What no task changes *)

Lemma step_keeps_configuration i w w' :
  step i w = Some w' ->
  url (this w') = url (this w)
  /\ reconnectOptions (this w') = reconnectOptions (this w).
Proof.
  intros Hstep.
  destruct i as [ctor| |outcome data|t|t data|t event|t event|ms|id ctor];
    simpl in Hstep.
  - injection Hstep as <-. destruct ctor; cases_of_bare_world w; split; reflexivity.
  - injection Hstep as <-. cases_of_bare_world w; try (split; reflexivity).
    all: match goal with |- context [?s !! ?t] => destruct (s !! t) end;
      split; reflexivity.
  - injection Hstep as <-. destruct outcome; cases_of_bare_world w; split; reflexivity.
  - destruct (sockets (host w) !! t) as [[]|]; try discriminate.
    injection Hstep as <-. cases_of_bare_world w; split; reflexivity.
  - destruct (sockets (host w) !! t) as [[]|]; try discriminate;
      injection Hstep as <-; cases_of_bare_world w; split; reflexivity.
  - destruct (sockets (host w) !! t) as [[]|]; try discriminate;
      injection Hstep as <-; cases_of_bare_world w; split; reflexivity.
  - destruct (sockets (host w) !! t) as [[]|]; try discriminate;
      injection Hstep as <-; cases_of_bare_world w; split; reflexivity.
  - destruct (0 <=? ms)%Z; [|discriminate]. injection Hstep as <-.
    split; reflexivity.
  - destruct (find_timer id (timers (host w))) as [tm|]; [|discriminate].
    destruct (timer_due tm <=? now (host w))%Z; [|discriminate].
    injection Hstep as <-. destruct ctor; cases_of_bare_world w; split; reflexivity.
Qed.

Lemma run_keeps_configuration tr : forall w0 w1,
  run tr w0 = Some w1 ->
  url (this w1) = url (this w0)
  /\ reconnectOptions (this w1) = reconnectOptions (this w0).
Proof.
  induction tr as [|i tr IH]; intros w0 w1 Hrun; simpl in Hrun.
  - injection Hrun as <-. split; reflexivity.
  - destruct (step i w0) as [w'|] eqn:Hstep; [|discriminate].
    destruct (step_keeps_configuration i w0 w' Hstep) as [Hu Ho].
    destruct (IH w' w1 Hrun) as [Hu' Ho']. split; congruence.
Qed.

(** X1: the URL and the reconnect options given to the constructor are
    never changed: after any run of the event loop the client still holds
    both. *)
Theorem configuration_is_immutable
    (u : string) (opts : option ReconnectOptions) (tr : list Input) (w : World) :
  run tr (initial u opts) = Some w ->
  url (this w) = u /\ reconnectOptions (this w) = opts.
Proof.
  intros Hrun. exact (run_keeps_configuration tr (initial u opts) w Hrun).
Qed.

Lemma configuration_is_immutable_witness :
  url (this (run_in (connect (Some "SyntaxError"))
               (initial "ws://localhost:1234" (Some (mkReconnectOptions 3 50 true)))))
  = "ws://localhost:1234"
  /\ reconnectOptions
       (this (run_in (connect (Some "SyntaxError"))
                (initial "ws://localhost:1234" (Some (mkReconnectOptions 3 50 true)))))
     = Some (mkReconnectOptions 3 50 true).
Proof.
  apply (configuration_is_immutable "ws://localhost:1234"
           (Some (mkReconnectOptions 3 50 true)) [CallConnect (Some "SyntaxError")]).
  reflexivity.
Defined.

(** ** Opening *)

(** X2: whatever the client was doing, an [open] event leaves it Connected
    with the attempt counter at zero and the reconnect flag cleared; its
    socket, its timer handle and the timer queue are untouched, and the
    socket that opened is [OPEN]. *)
Theorem open_resets_retry_state (t : TransportId) (w w' : World) :
  step (OnOpen t) w = Some w' ->
  state (this w') = Connected
  /\ isConnected (this w') = true
  /\ reconnectAttempts (this w') = 0
  /\ isReconnectingAttempt (this w') = false
  /\ ws (this w') = ws (this w)
  /\ reconnectTimeoutId (this w') = reconnectTimeoutId (this w)
  /\ timers (host w') = timers (host w)
  /\ sockets (host w') !! t = Some OPEN.
Proof.
  simpl. destruct (sockets (host w) !! t) as [[]|] eqn:Ht; try discriminate.
  intros [= <-].
  destruct w as [[u sock st opts att tid flag] [em con socks wr tms nt clk]].
  simpl in Ht. destruct flag; exec; repeat split; try reflexivity;
    eapply lookup_updated, Ht.
Qed.

Lemma open_resets_retry_state_witness :
  reconnectAttempts
    (this (run_in handleOpen
             (set_ready 0%nat OPEN
                (run_in (connect None) (initial "ws://localhost:1234" None))))) = 0.
Proof.
  apply (open_resets_retry_state 0%nat
           (run_in (connect None) (initial "ws://localhost:1234" None))).
  reflexivity.
Defined.

(** ** Messages and errors *)

(** X3: a [message] or an [error] event changes no field of the client,
    no socket, no timer and nothing on the wire: each emits exactly one
    event, Message with the data received, or Error with the [error] of an
    [ErrorEvent] and with a fixed message for any other event. *)
Theorem notifications_leave_client_alone (t : TransportId) (w w' : World) :
  (forall data,
      step (OnMessage t data) w = Some w' ->
      this w' = this w
      /\ emitted (host w') = emitted (host w) ++ [WebSocketEvents.Message data]
      /\ sockets (host w') = sockets (host w)
      /\ timers (host w') = timers (host w)
      /\ wire (host w') = wire (host w))
  /\
  (forall event,
      step (OnError t event) w = Some w' ->
      this w' = this w
      /\ emitted (host w') =
           emitted (host w) ++
           [WebSocketEvents.Error
              match event with
              | ErrorEvent e => e
              | PlainEvent => "WebSocket error occurred"
              end]
      /\ sockets (host w') = sockets (host w)
      /\ timers (host w') = timers (host w)
      /\ wire (host w') = wire (host w)).
Proof.
  split.
  - intros data. simpl.
    destruct (sockets (host w) !! t) as [[]|]; try discriminate;
      intros [= <-]; destruct w as [c h]; repeat split; reflexivity.
  - intros event. simpl.
    destruct (sockets (host w) !! t) as [[]|]; try discriminate;
      intros [= <-]; destruct w as [c h]; destruct event;
      repeat split; reflexivity.
Qed.

Lemma notifications_leave_client_alone_witness :
  let w := run_in (connect None) (initial "ws://localhost:1234" None) in
  emitted (host (run_in (handleError PlainEvent) w)) =
    emitted (host w) ++ [WebSocketEvents.Error "WebSocket error occurred"].
Proof.
  intros w.
  apply (proj2 (notifications_leave_client_alone 0%nat w
                  (run_in (handleError PlainEvent) w)) PlainEvent).
  reflexivity.
Defined.

(** ** Closing *)

(** X4: what a [close] event does to the client does not depend on the
    event: two close events with different codes, reasons and clean flags
    leave the same fields, sockets, timers and wire, and make the client
    emit as many events with the same Reconnecting attempts.  Whether a
    retry is scheduled is decided by the state alone. *)
Theorem close_event_content_is_irrelevant
    (t : TransportId) (event event' : CloseEvent) (w w1 w2 : World) :
  step (OnClose t event) w = Some w1 ->
  step (OnClose t event') w = Some w2 ->
  this w1 = this w2
  /\ sockets (host w1) = sockets (host w2)
  /\ timers (host w1) = timers (host w2)
  /\ nextTimer (host w1) = nextTimer (host w2)
  /\ wire (host w1) = wire (host w2)
  /\ reconnecting_attempts (emitted (host w1)) = reconnecting_attempts (emitted (host w2))
  /\ length (emitted (host w1)) = length (emitted (host w2)).
Proof.
  simpl. destruct (sockets (host w) !! t) as [[]|]; try discriminate;
    intros [= <-] [= <-]; cases_of_bare_world w;
    rewrite ?reconnecting_attempts_app, ?length_app;
    repeat split; reflexivity.
Qed.

Lemma close_event_content_is_irrelevant_witness :
  let w := run_in (connect None)
             (initial "ws://localhost:1234" (Some (mkReconnectOptions 3 50 false))) in
  this (run_in (handleClose (mkCloseEvent 1000 "bye" true)) (set_ready 0%nat CLOSED w))
  = this (run_in (handleClose (mkCloseEvent 1006 "" false)) (set_ready 0%nat CLOSED w)).
Proof.
  intros w.
  apply (close_event_content_is_irrelevant 0%nat
           (mkCloseEvent 1000 "bye" true) (mkCloseEvent 1006 "" false) w);
    reflexivity.
Defined.

(** ** The wire *)

(** X5: the only task that hands a frame to a socket is a [sendMessage]
    whose [send] does not throw, called while the state is Connected, and
    the frame goes to [this.ws]; every other task leaves the wire as it
    was.  In particular the client never replays or queues frames. *)
Theorem frames_only_from_connected_send (i : Input) (w w' : World) :
  step i w = Some w' ->
  wire (host w') = wire (host w)
  \/ exists t data,
       i = CallSendMessage None data
       /\ state (this w) = Connected
       /\ ws (this w) = Some t
       /\ wire (host w') = wire (host w) ++ [(t, data)].
Proof.
  intros Hstep.
  destruct i as [ctor| |outcome data|t|t data|t event|t event|ms|id ctor];
    simpl in Hstep.
  - injection Hstep as <-. left. destruct ctor; cases_of_bare_world w; reflexivity.
  - injection Hstep as <-. left. cases_of_bare_world w; try reflexivity.
    all: match goal with |- context [?s !! ?t] => destruct (s !! t) end; reflexivity.
  - injection Hstep as <-.
    destruct w as [[u sock st opts att tid flag] [em con socks wr tms nt clk]].
    destruct outcome, st, sock as [t|]; try (left; reflexivity).
    right. exists t, data. repeat split; reflexivity.
  - left. destruct (sockets (host w) !! t) as [[]|]; try discriminate.
    injection Hstep as <-. cases_of_bare_world w; reflexivity.
  - left. destruct (sockets (host w) !! t) as [[]|]; try discriminate;
      injection Hstep as <-; cases_of_bare_world w; reflexivity.
  - left. destruct (sockets (host w) !! t) as [[]|]; try discriminate;
      injection Hstep as <-; cases_of_bare_world w; reflexivity.
  - left. destruct (sockets (host w) !! t) as [[]|]; try discriminate;
      injection Hstep as <-; cases_of_bare_world w; reflexivity.
  - left. destruct (0 <=? ms)%Z; [|discriminate]. injection Hstep as <-. reflexivity.
  - left. destruct (find_timer id (timers (host w))) as [tm|]; [|discriminate].
    destruct (timer_due tm <=? now (host w))%Z; [|discriminate].
    injection Hstep as <-. destruct ctor; cases_of_bare_world w; reflexivity.
Qed.

Lemma frames_only_from_connected_send_witness :
  let w := run_in (connect None) (initial "ws://localhost:1234" None) in
  wire (host (run_in (sendMessage None (Text "early")) w)) = wire (host w)
  \/ exists t data,
       CallSendMessage None (Text "early") = CallSendMessage None data
       /\ state (this w) = Connected
       /\ ws (this w) = Some t
       /\ wire (host (run_in (sendMessage None (Text "early")) w))
          = wire (host w) ++ [(t, data)].
Proof.
  intros w.
  apply (frames_only_from_connected_send (CallSendMessage None (Text "early")) w).
  reflexivity.
Defined.

(** X6: in every world in which [isConnected()] answers true and
    [this.ws] is set, a [sendMessage] whose [send] does not throw hands
    exactly that payload to [this.ws], once; it emits nothing, changes no
    field, no socket and no timer, and returns. *)
Theorem send_reaches_the_held_socket (w : World) (t : TransportId) (data : Payload) :
  isConnected (this w) = true ->
  ws (this w) = Some t ->
  let w' := run_in (sendMessage None data) w in
  wire (host w') = wire (host w) ++ [(t, data)]
  /\ emitted (host w') = emitted (host w)
  /\ this w' = this w
  /\ sockets (host w') = sockets (host w)
  /\ timers (host w') = timers (host w)
  /\ returns (sendMessage None data) w = true.
Proof.
  intros Hconn Hws w'. subst w'.
  destruct w as [[u sock st opts att tid flag] h].
  unfold isConnected in Hconn. simpl in Hconn, Hws.
  destruct st; try discriminate. subst sock. repeat split; reflexivity.
Qed.

Lemma send_reaches_the_held_socket_witness :
  let w := run_in handleOpen
             (set_ready 0%nat OPEN
                (run_in (connect None) (initial "ws://localhost:1234" None))) in
  wire (host (run_in (sendMessage None (Text "Hello Server!")) w))
  = wire (host w) ++ [(0%nat, Text "Hello Server!")].
Proof.
  intros w.
  apply (send_reaches_the_held_socket w 0%nat (Text "Hello Server!")); reflexivity.
Defined.

(** ** One notification per socket event *)

Lemma occurrences_app p l l' :
  occurrences p (l ++ l') = (occurrences p l + occurrences p l')%nat.
Proof. unfold occurrences. rewrite List.filter_app, length_app. reflexivity. Qed.

Ltac count_done :=
  rewrite ?occurrences_app; unfold occurrences; simpl; lia.

(** X7: Connected is emitted exactly once by each [open] event and by no
    other task; Disconnected is emitted exactly once by each [close] event
    and by no other task. *)
Theorem one_notification_per_socket_event (i : Input) (w w' : World) :
  step i w = Some w' ->
  occurrences is_connected (emitted (host w')) =
    (occurrences is_connected (emitted (host w))
     + if is_open_event i then 1 else 0)%nat
  /\ occurrences is_disconnected (emitted (host w')) =
       (occurrences is_disconnected (emitted (host w))
        + if is_close_event i then 1 else 0)%nat.
Proof.
  intros Hstep.
  destruct i as [ctor| |outcome data|t|t data|t event|t event|ms|id ctor];
    simpl in Hstep; simpl is_open_event; simpl is_close_event.
  - injection Hstep as <-. destruct ctor; cases_of_bare_world w; split; count_done.
  - injection Hstep as <-. cases_of_bare_world w; try (split; count_done).
    all: match goal with |- context [?s !! ?t] => destruct (s !! t) end;
      split; count_done.
  - injection Hstep as <-. destruct outcome; cases_of_bare_world w; split; count_done.
  - destruct (sockets (host w) !! t) as [[]|]; try discriminate.
    injection Hstep as <-. cases_of_bare_world w; split; count_done.
  - destruct (sockets (host w) !! t) as [[]|]; try discriminate;
      injection Hstep as <-; cases_of_bare_world w; split; count_done.
  - destruct (sockets (host w) !! t) as [[]|]; try discriminate;
      injection Hstep as <-; cases_of_bare_world w; split; count_done.
  - destruct (sockets (host w) !! t) as [[]|]; try discriminate;
      injection Hstep as <-; cases_of_bare_world w; split; count_done.
  - destruct (0 <=? ms)%Z; [|discriminate]. injection Hstep as <-.
    split; simpl; lia.
  - destruct (find_timer id (timers (host w))) as [tm|]; [|discriminate].
    destruct (timer_due tm <=? now (host w))%Z; [|discriminate].
    injection Hstep as <-. destruct ctor; cases_of_bare_world w; split; count_done.
Qed.

Lemma one_notification_per_socket_event_witness :
  let w := run_in (connect None)
             (initial "ws://localhost:1234" (Some (mkReconnectOptions 3 50 false))) in
  occurrences is_disconnected
    (emitted (host (run_in (handleClose (mkCloseEvent 1006 "" false))
                      (set_ready 0%nat CLOSED w))))
  = (occurrences is_disconnected (emitted (host w)) + 1)%nat.
Proof.
  intros w.
  apply (one_notification_per_socket_event
           (OnClose 0%nat (mkCloseEvent 1006 "" false)) w).
  reflexivity.
Defined.

(** ** [disconnect] *)

(** X8: [disconnect()] called in Idle or in Disconnecting, or without a
    socket, is refused: one warning is logged and nothing else changes. *)
Theorem disconnect_refused (w : World) :
  state (this w) = Idle \/ state (this w) = Disconnecting \/ ws (this w) = None ->
  this (run_in disconnect w) = this w
  /\ emitted (host (run_in disconnect w)) = emitted (host w)
  /\ sockets (host (run_in disconnect w)) = sockets (host w)
  /\ timers (host (run_in disconnect w)) = timers (host w)
  /\ wire (host (run_in disconnect w)) = wire (host w)
  /\ console (host (run_in disconnect w)) =
       console (host w) ++
       [(WARN, "[WebSocketClient] Not connected or already disconnecting.")]
  /\ returns disconnect w = true.
Proof.
  intros H. destruct w as [[u sock st opts att tid flag] h]. simpl in H.
  destruct st, sock; destruct H as [H | [H | H]]; try discriminate;
    repeat split; reflexivity.
Qed.

Lemma disconnect_refused_witness :
  this (run_in disconnect (initial "ws://localhost:1234" None))
  = this (initial "ws://localhost:1234" None).
Proof.
  apply (disconnect_refused (initial "ws://localhost:1234" None)).
  left. reflexivity.
Defined.

(** X9: calling [disconnect()] twice in a row has the effect of calling it
    once: in every world the second call is refused, so the fields, the
    sockets, the timers, the events and the wire are those the first call
    left. *)
Theorem disconnect_twice (w : World) :
  let w1 := run_in disconnect w in
  let w2 := run_in disconnect w1 in
  this w2 = this w1
  /\ emitted (host w2) = emitted (host w1)
  /\ sockets (host w2) = sockets (host w1)
  /\ timers (host w2) = timers (host w1)
  /\ wire (host w2) = wire (host w1).
Proof.
  intros w1 w2. subst w1 w2.
  destruct w as [[u sock st opts att tid flag] [em con socks wr tms nt clk]].
  destruct sock as [t|]; [|repeat split; reflexivity].
  destruct st, tid; exec; try (repeat split; reflexivity);
    destruct (socks !! t); repeat split; reflexivity.
Qed.

(** X10: in every world, when [disconnect()] goes ahead (a socket is held
    and the state is Connecting, Connected or Reconnecting) it moves the
    client to Disconnecting, clears the flag and the attempt counter,
    cancels the timer the client holds, if any, emits nothing and asks the
    socket to close: a socket that was connecting or open is [CLOSING]. *)
Theorem disconnect_goes_ahead (w : World) (t : TransportId) :
  ws (this w) = Some t ->
  state (this w) = Connecting \/ state (this w) = Connected
  \/ state (this w) = Reconnecting ->
  let w' := run_in disconnect w in
  state (this w') = Disconnecting
  /\ ws (this w') = Some t
  /\ isReconnectingAttempt (this w') = false
  /\ reconnectAttempts (this w') = 0
  /\ reconnectTimeoutId (this w') = None
  /\ timers (host w') =
       match reconnectTimeoutId (this w) with
       | Some id => cancel id (timers (host w))
       | None => timers (host w)
       end
  /\ emitted (host w') = emitted (host w)
  /\ wire (host w') = wire (host w)
  /\ sockets (host w') =
       match sockets (host w) !! t with
       | Some r => <[t := closing r]> (sockets (host w))
       | None => sockets (host w)
       end
  /\ returns disconnect w = true.
Proof.
  intros Hws Hst w'. subst w'.
  destruct w as [[u sock st opts att tid flag] [em con socks wr tms nt clk]].
  simpl in Hws, Hst. subst sock.
  destruct Hst as [-> | [-> | ->]]; destruct tid; exec;
    destruct (socks !! t); repeat split; reflexivity.
Qed.

Lemma disconnect_goes_ahead_witness :
  let w := run_in (connect None) (initial "ws://localhost:1234" None) in
  state (this (run_in disconnect w)) = Disconnecting
  /\ sockets (host (run_in disconnect w)) = [CLOSING].
Proof.
  intros w.
  destruct (disconnect_goes_ahead w 0%nat) as (Hst & _ & _ & _ & _ & _ & _ & _ & Hs & _).
  - reflexivity.
  - left. reflexivity.
  - split; [exact Hst | exact Hs].
Defined.

(** ** Without a retry policy *)

Ltac retry_free_done :=
  unfold retry_free in *; exec;
  rewrite ?reconnecting_attempts_app, ?reconnections_app;
  unfold reconnections in *; simpl; rewrite ?app_nil_r;
  intuition (try discriminate; try congruence; try lia).

Lemma step_retry_free i w w' :
  consistent w -> reconnectOptions (this w) = None -> retry_free w ->
  step i w = Some w' -> retry_free w'.
Proof.
  intros H Hnone Hfree Hstep.
  destruct i as [ctor| |outcome data|t|t data|t event|t event|ms|id ctor];
    simpl in Hstep.
  - injection Hstep as <-. revert Hfree.
    cases_of_world w H; simpl in Hnone; try discriminate;
      destruct ctor; retry_free_done.
  - injection Hstep as <-. revert Hfree.
    cases_of_world w H; simpl in Hnone; try discriminate; try retry_free_done.
    all: rewrite Hready; retry_free_done.
  - injection Hstep as <-. revert Hfree.
    cases_of_world w H; simpl in Hnone; try discriminate;
      destruct outcome; retry_free_done.
  - destruct (sockets (host w) !! t) as [[]|]; try discriminate.
    injection Hstep as <-. revert Hfree.
    cases_of_world w H; simpl in Hnone; try discriminate;
      destruct flag; retry_free_done.
  - destruct (sockets (host w) !! t) as [[]|]; try discriminate;
      injection Hstep as <-; revert Hfree;
      cases_of_world w H; simpl in Hnone; try discriminate; retry_free_done.
  - destruct (sockets (host w) !! t) as [[]|]; try discriminate;
      injection Hstep as <-; revert Hfree;
      cases_of_world w H; simpl in Hnone; try discriminate; retry_free_done.
  - destruct (sockets (host w) !! t) as [[]|]; try discriminate;
      injection Hstep as <-; revert Hfree;
      cases_of_world w H; simpl in Hnone; try discriminate; retry_free_done.
  - destruct (0 <=? ms)%Z; [|discriminate]. injection Hstep as <-.
    destruct w as [c h]. exact Hfree.
  - destruct (find_timer id (timers (host w))) as [tm|] eqn:Hfind; [|discriminate].
    exfalso.
    cases_of_world w H; simpl in Hnone, Hfind; try discriminate.
    all: destruct (Hflag eq_refl) as [_ Habs]; discriminate.
Qed.

(** X11: a client constructed without reconnect options never retries.
    After any run it is not Reconnecting, it holds no timer and the host's
    queue is empty, its attempt counter is zero, its flag is clear, and
    neither Reconnecting nor Reconnected has been emitted. *)
Theorem no_policy_no_retry (u : string) (tr : list Input) (w : World) :
  run tr (initial u None) = Some w ->
  state (this w) <> Reconnecting
  /\ reconnectTimeoutId (this w) = None
  /\ timers (host w) = []
  /\ reconnectAttempts (this w) = 0
  /\ isReconnectingAttempt (this w) = false
  /\ reconnecting_attempts (emitted (host w)) = []
  /\ reconnections (emitted (host w)) = 0%nat.
Proof.
  intros Hrun.
  assert (Hgen : forall tr w0 w1,
            consistent w0 -> reconnectOptions (this w0) = None -> retry_free w0 ->
            run tr w0 = Some w1 -> retry_free w1).
  { clear. induction tr as [|i tr IH]; intros w0 w1 H Hnone Hfree Hrun; simpl in Hrun.
    - injection Hrun as <-. exact Hfree.
    - destruct (step i w0) as [w'|] eqn:Hstep; [|discriminate].
      apply (IH w' w1); [eapply step_consistent; eassumption | | | exact Hrun].
      + destruct (step_keeps_configuration i w0 w' Hstep) as [_ ->]. exact Hnone.
      + eapply step_retry_free; eassumption. }
  assert (Hfree : retry_free w).
  { apply (Hgen tr (initial u None) w); try assumption.
    - apply initial_consistent.
    - reflexivity.
    - repeat split. }
  assert (H : consistent w).
  { apply reachable_consistent. exists u, None, tr. exact Hrun. }
  destruct (run_keeps_configuration tr (initial u None) w Hrun) as [_ Hnone].
  simpl in Hnone.
  destruct Hfree as (Hflag & Hatt & Hrec).
  pose proof (flag_set w H) as Hfs. pose proof (timer_state w H) as Hts.
  pose proof (timer_owned w H) as Hto. pose proof (attempts_policy w H Hnone) as Hap.
  assert (Hst : state (this w) <> Reconnecting).
  { intros Heq. rewrite Heq in Hfs. destruct (Hfs eq_refl) as [_ Habs].
    rewrite Hnone in Habs. discriminate. }
  assert (Htid : reconnectTimeoutId (this w) = None).
  { destruct (reconnectTimeoutId (this w)); [|reflexivity].
    destruct (state (this w)); simpl in Hts; try discriminate. congruence. }
  rewrite Htid in Hto. apply timers_none in Hto.
  repeat split; assumption.
Qed.

Lemma no_policy_no_retry_witness :
  timers (host (run_in (handleClose (mkCloseEvent 1006 "" false))
                  (set_ready 0%nat CLOSED
                     (run_in (connect None) (initial "ws://localhost:1234" None)))))
  = [].
Proof.
  apply (no_policy_no_retry "ws://localhost:1234"
           [CallConnect None; OnClose 0%nat (mkCloseEvent 1006 "" false)]).
  reflexivity.
Defined.

(** ** The attempt counter *)

Lemma Forall_snoc {A} (P : A -> Prop) (l : list A) (x : A) :
  Forall P l -> P x -> Forall P (l ++ [x]).
Proof. intros Hl Hx. apply Forall_app. split; [exact Hl | constructor; [exact Hx | constructor]]. Qed.

Ltac within_policy_done :=
  unfold within_policy; exec;
  rewrite ?reconnecting_attempts_app; simpl; rewrite ?app_nil_r;
  repeat match goal with
         | H : (_ >=? _)%Z = true |- _ => rewrite Z.geb_leb in H; apply Z.leb_le in H
         | H : (_ >=? _)%Z = false |- _ => rewrite Z.geb_leb in H; apply Z.leb_gt in H
         end;
  first
    [ intros _; exact I
    | intros [Hatt Hall]; split; [lia | exact Hall]
    | intros [Hatt Hall]; split; [lia | apply Forall_snoc; [exact Hall | lia]] ].

Lemma step_within_policy i w w' :
  within_policy w -> step i w = Some w' -> within_policy w'.
Proof.
  intros Hin Hstep.
  destruct i as [ctor| |outcome data|t|t data|t event|t event|ms|id ctor];
    simpl in Hstep.
  - injection Hstep as <-. revert Hin.
    destruct ctor; cases_of_bare_world w; within_policy_done.
  - injection Hstep as <-. revert Hin.
    cases_of_bare_world w; try within_policy_done.
    all: match goal with |- context [?s !! ?t] => destruct (s !! t) end;
      within_policy_done.
  - injection Hstep as <-. revert Hin.
    destruct outcome; cases_of_bare_world w; within_policy_done.
  - destruct (sockets (host w) !! t) as [[]|]; try discriminate.
    injection Hstep as <-. revert Hin. cases_of_bare_world w; within_policy_done.
  - destruct (sockets (host w) !! t) as [[]|]; try discriminate;
      injection Hstep as <-; revert Hin; cases_of_bare_world w; within_policy_done.
  - destruct (sockets (host w) !! t) as [[]|]; try discriminate;
      injection Hstep as <-; revert Hin; cases_of_bare_world w; within_policy_done.
  - destruct (sockets (host w) !! t) as [[]|]; try discriminate;
      injection Hstep as <-; revert Hin; cases_of_bare_world w; within_policy_done.
  - destruct (0 <=? ms)%Z; [|discriminate]. injection Hstep as <-.
    destruct w as [c h]. exact Hin.
  - destruct (find_timer id (timers (host w))) as [tm|]; [|discriminate].
    destruct (timer_due tm <=? now (host w))%Z; [|discriminate].
    injection Hstep as <-. revert Hin.
    destruct ctor; cases_of_bare_world w; within_policy_done.
Qed.

(** X12: with reconnect options [o], after any run the attempt counter
    lies between 0 and [retries] (0 when [retries] is negative), and every
    Reconnecting event emitted so far carries an attempt number between 1
    and [retries]. *)
Theorem attempts_stay_within_policy
    (u : string) (o : ReconnectOptions) (tr : list Input) (w : World) :
  run tr (initial u (Some o)) = Some w ->
  0 <= reconnectAttempts (this w) <= Z.max 0 (retries o)
  /\ Forall (fun k => 1 <= k <= retries o)
            (reconnecting_attempts (emitted (host w))).
Proof.
  intros Hrun.
  assert (Hgen : forall tr w0 w1,
            within_policy w0 -> run tr w0 = Some w1 -> within_policy w1).
  { clear. induction tr as [|i tr IH]; intros w0 w1 Hin Hrun; simpl in Hrun.
    - injection Hrun as <-. exact Hin.
    - destruct (step i w0) as [w'|] eqn:Hstep; [|discriminate].
      eapply IH; [eapply step_within_policy; eassumption | exact Hrun]. }
  assert (Hin : within_policy w).
  { apply (Hgen tr (initial u (Some o)) w); [|exact Hrun].
    unfold within_policy. simpl. split; [lia | constructor]. }
  destruct (run_keeps_configuration tr (initial u (Some o)) w Hrun) as [_ Ho].
  simpl in Ho.
  unfold within_policy in Hin. rewrite Ho in Hin. exact Hin.
Qed.

Lemma attempts_stay_within_policy_witness :
  let w := run_in (handleClose (mkCloseEvent 1006 "" false))
             (set_ready 0%nat CLOSED
                (run_in (connect None)
                   (initial "ws://localhost:1234" (Some (mkReconnectOptions 3 50 false))))) in
  0 <= reconnectAttempts (this w) <= Z.max 0 3
  /\ Forall (fun k => 1 <= k <= 3) (reconnecting_attempts (emitted (host w))).
Proof.
  intros w.
  apply (attempts_stay_within_policy "ws://localhost:1234" (mkReconnectOptions 3 50 false)
           [CallConnect None; OnClose 0%nat (mkCloseEvent 1006 "" false)]).
  reflexivity.
Defined.

(** ** When the timer fires *)

(** X13: what a timer that fires does, in every world.  The handle is
    cleared in both cases.  If the client is Reconnecting the callback
    calls [connect()].  Otherwise it clears the reconnect flag and does
    nothing else: no socket is constructed, nothing is emitted or sent,
    no timer is created and the state is unchanged. *)
Theorem timer_callback_outcomes
    (id : TimerId) (ctor : option JsValue) (w w' : World) :
  step (TimerFires id ctor) w = Some w' ->
  (state (this w) = Reconnecting ->
   w' = run_in (connect ctor)
          (mkWorld (with_reconnectTimeoutId None (this w))
                   (with_timers (cancel id (timers (host w)))
                                (nextTimer (host w)) (host w))))
  /\ (state (this w) <> Reconnecting ->
      this w' =
        with_isReconnectingAttempt false (with_reconnectTimeoutId None (this w))
      /\ state (this w') = state (this w)
      /\ emitted (host w') = emitted (host w)
      /\ sockets (host w') = sockets (host w)
      /\ wire (host w') = wire (host w)
      /\ timers (host w') = cancel id (timers (host w))
      /\ nextTimer (host w') = nextTimer (host w)).
Proof.
  intros Hfire. simpl in Hfire.
  destruct (find_timer id (timers (host w))) as [tm|]; [|discriminate].
  destruct (timer_due tm <=? now (host w))%Z; [|discriminate].
  injection Hfire as <-.
  destruct w as [[u sock st opts att tid flag] [em con socks wr tms nt clk]].
  split; intros Hst; simpl in Hst.
  - subst st. reflexivity.
  - destruct st; try congruence; repeat split; reflexivity.
Qed.

Lemma timer_callback_outcomes_witness :
  let w := mkWorld
             (mkClient "ws://localhost:1234" (Some 0%nat) Connected
                (Some (mkReconnectOptions 3 50 false)) 0 (Some 1%nat) true)
             (mkHost [] [] [OPEN] [] [mkTimer 1%nat 50 50] 2%nat 50) in
  let w' := run_in (reconnectTimerCallback None) (dequeue 1%nat w) in
  isReconnectingAttempt (this w') = false
  /\ state (this w') = Connected
  /\ sockets (host w') = [OPEN]
  /\ timers (host w') = [].
Proof.
  intros w w'.
  destruct (timer_callback_outcomes 1%nat None w w' eq_refl) as [_ Hother].
  destruct Hother as (Hthis & Hst & _ & Hs & _ & Htm & _).
  - discriminate.
  - rewrite Hthis. split; [reflexivity|]. split; [exact Hst|].
    split; [exact Hs | exact Htm].
Defined.

(** ** A manual disconnect, start to finish *)



(** ** An unexpected close *)



(** ** A constructor that throws *)



(** ** A retry that succeeds *)



(** ** What subscribers can rely on *)

Lemma link_up_snoc l e : link_up (l ++ [e]) = link_after (link_up l) e.
Proof. unfold link_up. rewrite fold_left_app. reflexivity. Qed.

Ltac link_done :=
  unfold link_agrees; exec; rewrite ?link_up_snoc; simpl;
  first [ reflexivity | exact I | intros; assumption | intros; reflexivity
        | intros; exact I ].

Lemma step_link_agrees i w w' :
  link_agrees w -> step i w = Some w' -> link_agrees w'.
Proof.
  intros Hin Hstep.
  destruct i as [ctor| |outcome data|t|t data|t event|t event|ms|id ctor];
    simpl in Hstep.
  - injection Hstep as <-. revert Hin.
    destruct ctor; cases_of_bare_world w; link_done.
  - injection Hstep as <-. revert Hin.
    cases_of_bare_world w; try link_done.
    all: match goal with |- context [?s !! ?t] => destruct (s !! t) end; link_done.
  - injection Hstep as <-. revert Hin.
    destruct outcome; cases_of_bare_world w; link_done.
  - destruct (sockets (host w) !! t) as [[]|]; try discriminate.
    injection Hstep as <-. revert Hin. cases_of_bare_world w; link_done.
  - destruct (sockets (host w) !! t) as [[]|]; try discriminate;
      injection Hstep as <-; revert Hin; cases_of_bare_world w; link_done.
  - destruct (sockets (host w) !! t) as [[]|]; try discriminate;
      injection Hstep as <-; revert Hin; cases_of_bare_world w; link_done.
  - destruct (sockets (host w) !! t) as [[]|]; try discriminate;
      injection Hstep as <-; revert Hin; cases_of_bare_world w; link_done.
  - destruct (0 <=? ms)%Z; [|discriminate]. injection Hstep as <-.
    destruct w as [c h]. exact Hin.
  - destruct (find_timer id (timers (host w))) as [tm|]; [|discriminate].
    destruct (timer_due tm <=? now (host w))%Z; [|discriminate].
    injection Hstep as <-. revert Hin.
    destruct ctor; cases_of_bare_world w; link_done.
Qed.

(** X18: a subscriber that listens to Connected and Disconnected only
    knows whether the client is connected.  After any run: if the state is
    Connected, the later of the two events was Connected; if the state is
    Idle, Connecting or Reconnecting, it was Disconnected or neither was
    ever emitted.  (During Disconnecting the subscriber may still believe
    either.) *)
Theorem subscribers_track_the_link
    (u : string) (opts : option ReconnectOptions) (tr : list Input) (w : World) :
  run tr (initial u opts) = Some w ->
  match state (this w) with
  | Connected => link_up (emitted (host w)) = true
  | Disconnecting => True
  | Idle | Connecting | Reconnecting => link_up (emitted (host w)) = false
  end.
Proof.
  assert (Hgen : forall tr w0 w1,
            link_agrees w0 -> run tr w0 = Some w1 -> link_agrees w1).
  { clear. induction tr as [|i tr IH]; intros w0 w1 Hin Hrun; simpl in Hrun.
    - injection Hrun as <-. exact Hin.
    - destruct (step i w0) as [w'|] eqn:Hstep; [|discriminate].
      eapply IH; [eapply step_link_agrees; eassumption | exact Hrun]. }
  intros Hrun. apply (Hgen tr (initial u opts) w); [reflexivity | exact Hrun].
Qed.

Lemma subscribers_track_the_link_witness :
  link_up (emitted (host (run_in handleOpen
                            (set_ready 0%nat OPEN
                               (run_in (connect None)
                                  (initial "ws://localhost:1234" None)))))) = true.
Proof.
  exact (subscribers_track_the_link "ws://localhost:1234" None
           [CallConnect None; OnOpen 0%nat]
           (run_in handleOpen
              (set_ready 0%nat OPEN
                 (run_in (connect None) (initial "ws://localhost:1234" None))))
           eq_refl).
Defined.

Ltac announced_done :=
  unfold retries_announced; exec;
  rewrite ?reconnecting_attempts_app, ?reconnections_app, ?length_app;
  unfold reconnections; simpl; intros; lia.

Lemma step_retries_announced i w w' :
  retries_announced w -> step i w = Some w' -> retries_announced w'.
Proof.
  intros Hin Hstep.
  destruct i as [ctor| |outcome data|t|t data|t event|t event|ms|id ctor];
    simpl in Hstep.
  - injection Hstep as <-. revert Hin.
    destruct ctor; cases_of_bare_world w; announced_done.
  - injection Hstep as <-. revert Hin.
    cases_of_bare_world w; try announced_done.
    all: match goal with |- context [?s !! ?t] => destruct (s !! t) end;
      announced_done.
  - injection Hstep as <-. revert Hin.
    destruct outcome; cases_of_bare_world w; announced_done.
  - destruct (sockets (host w) !! t) as [[]|]; try discriminate.
    injection Hstep as <-. revert Hin. cases_of_bare_world w; announced_done.
  - destruct (sockets (host w) !! t) as [[]|]; try discriminate;
      injection Hstep as <-; revert Hin; cases_of_bare_world w; announced_done.
  - destruct (sockets (host w) !! t) as [[]|]; try discriminate;
      injection Hstep as <-; revert Hin; cases_of_bare_world w; announced_done.
  - destruct (sockets (host w) !! t) as [[]|]; try discriminate;
      injection Hstep as <-; revert Hin; cases_of_bare_world w; announced_done.
  - destruct (0 <=? ms)%Z; [|discriminate]. injection Hstep as <-.
    destruct w as [c h]. exact Hin.
  - destruct (find_timer id (timers (host w))) as [tm|]; [|discriminate].
    destruct (timer_due tm <=? now (host w))%Z; [|discriminate].
    injection Hstep as <-. revert Hin.
    destruct ctor; cases_of_bare_world w; announced_done.
Qed.

(** X19: Reconnected is never emitted more often than Reconnecting: after
    any run, every Reconnected so far answers a Reconnecting of its own,
    and while the reconnect flag is set one Reconnecting is still
    unanswered. *)
Theorem reconnected_answers_reconnecting
    (u : string) (opts : option ReconnectOptions) (tr : list Input) (w : World) :
  run tr (initial u opts) = Some w ->
  (reconnections (emitted (host w))
   + (if isReconnectingAttempt (this w) then 1 else 0)
   <= length (reconnecting_attempts (emitted (host w))))%nat.
Proof.
  assert (Hgen : forall tr w0 w1,
            retries_announced w0 -> run tr w0 = Some w1 -> retries_announced w1).
  { clear. induction tr as [|i tr IH]; intros w0 w1 Hin Hrun; simpl in Hrun.
    - injection Hrun as <-. exact Hin.
    - destruct (step i w0) as [w'|] eqn:Hstep; [|discriminate].
      eapply IH; [eapply step_retries_announced; eassumption | exact Hrun]. }
  intros Hrun. apply (Hgen tr (initial u opts) w); [|exact Hrun].
  unfold retries_announced. simpl. lia.
Qed.

Lemma reconnected_answers_reconnecting_witness :
  let w := run_in (handleClose (mkCloseEvent 1006 "" false))
             (set_ready 0%nat CLOSED
                (run_in (connect None)
                   (initial "ws://localhost:1234" (Some (mkReconnectOptions 3 50 false))))) in
  (reconnections (emitted (host w))
   + (if isReconnectingAttempt (this w) then 1 else 0)
   <= length (reconnecting_attempts (emitted (host w))))%nat.
Proof.
  intros w.
  apply (reconnected_answers_reconnecting "ws://localhost:1234"
           (Some (mkReconnectOptions 3 50 false))
           [CallConnect None; OnClose 0%nat (mkCloseEvent 1006 "" false)]).
  reflexivity.
Defined.

(** * Subscribers *)

(** ** Subscribers that never call back *)

Lemma bind_ext {A B} (m m' : M A) (k k' : A -> M B) (w : World) :
  (forall w0, m w0 = m' w0) ->
  (forall a w0, k a w0 = k' a w0) ->
  bind m k w = bind m' k' w.
Proof.
  intros Hm Hk. unfold bind. rewrite Hm.
  destruct (m' w) as [[a|e] w1]; [apply Hk | reflexivity].
Qed.

Lemma try_catch_ext {A} (body body' : M A) (handler handler' : JsValue -> M A)
    (w : World) :
  (forall w0, body w0 = body' w0) ->
  (forall e w0, handler e w0 = handler' e w0) ->
  try_catch body handler w = try_catch body' handler' w.
Proof.
  intros Hb Hh. unfold try_catch. rewrite Hb.
  destruct (body' w) as [[a|e] w1]; [reflexivity | apply Hh].
Qed.

Section SameMethods.

Variable notify : WebSocketEvents.t -> M unit.
Hypothesis notify_records : forall ev w, notify ev w = emit ev w.

Ltac same_step :=
  first
    [ reflexivity
    | apply notify_records
    | apply bind_ext; intros
    | apply try_catch_ext; intros
    | match goal with
      | |- (if ?c then _ else _) _ = (if ?c then _ else _) _ => destruct c
      | |- (match ?x with _ => _ end) _ = (match ?x with _ => _ end) _ => destruct x
      end ].

Lemma scheduleReconnect_same w :
  Subscribed.scheduleReconnect notify w = scheduleReconnect w.
Proof. unfold Subscribed.scheduleReconnect, scheduleReconnect. repeat same_step. Qed.

Lemma connect_same ctor w :
  Subscribed.connect notify ctor w = connect ctor w.
Proof.
  unfold Subscribed.connect, connect.
  repeat first [apply scheduleReconnect_same | same_step].
Qed.

Lemma sendMessage_same outcome data w :
  Subscribed.sendMessage notify outcome data w = sendMessage outcome data w.
Proof. unfold Subscribed.sendMessage, sendMessage. repeat same_step. Qed.

Lemma handleOpen_same w : Subscribed.handleOpen notify w = handleOpen w.
Proof. unfold Subscribed.handleOpen, handleOpen. repeat same_step. Qed.

Lemma handleMessage_same data w :
  Subscribed.handleMessage notify data w = handleMessage data w.
Proof. unfold Subscribed.handleMessage, handleMessage. repeat same_step. Qed.

Lemma handleError_same event w :
  Subscribed.handleError notify event w = handleError event w.
Proof. unfold Subscribed.handleError, handleError. repeat same_step. Qed.

Lemma handleClose_same event w :
  Subscribed.handleClose notify event w = handleClose event w.
Proof.
  unfold Subscribed.handleClose, handleClose.
  repeat first [apply scheduleReconnect_same | same_step].
Qed.

Lemma reconnectTimerCallback_same ctor w :
  Subscribed.reconnectTimerCallback notify ctor w = reconnectTimerCallback ctor w.
Proof.
  unfold Subscribed.reconnectTimerCallback, reconnectTimerCallback.
  repeat first [apply connect_same | same_step].
Qed.

End SameMethods.

Lemma emit_silent subs depth ev w :
  silent subs -> Subscribed.emit subs depth ev w = emit ev w.
Proof.
  intros Hs. destruct depth; simpl; unfold bind, on_host, observe, emit;
    rewrite Hs; reflexivity.
Qed.

(** With silent subscribers a task does what [step] says. *)
Lemma step_silent subs depth i w :
  silent subs -> Subscribed.step subs depth i w = step i w.
Proof.
  intros Hs.
  assert (Hn : forall ev w0, Subscribed.emit subs depth ev w0 = emit ev w0)
    by (intros; apply emit_silent, Hs).
  destruct i as [ctor| |outcome data|t|t data|t event|t event|ms|id ctor];
    unfold Subscribed.step, step, run_in.
  - rewrite (connect_same _ Hn). reflexivity.
  - reflexivity.
  - rewrite (sendMessage_same _ Hn). reflexivity.
  - destruct (sockets (host w) !! t) as [[]|]; try reflexivity.
    rewrite (handleOpen_same _ Hn). reflexivity.
  - destruct (sockets (host w) !! t) as [[]|]; try reflexivity;
      rewrite (handleMessage_same _ Hn); reflexivity.
  - destruct (sockets (host w) !! t) as [[]|]; try reflexivity;
      rewrite (handleError_same _ Hn); reflexivity.
  - destruct (sockets (host w) !! t) as [[]|]; try reflexivity;
      rewrite (handleClose_same _ Hn); reflexivity.
  - reflexivity.
  - destruct (find_timer id (timers (host w))) as [tm|]; [|reflexivity].
    destruct (timer_due tm <=? now (host w))%Z; [|reflexivity].
    rewrite (reconnectTimerCallback_same _ Hn). reflexivity.
Qed.

Lemma run_silent subs depth tr : forall w,
  silent subs -> Subscribed.run subs depth tr w = run tr w.
Proof.
  induction tr as [|i tr IH]; intros w Hs; simpl; [reflexivity|].
  rewrite (step_silent subs depth i w Hs).
  destruct (step i w); [apply IH, Hs | reflexivity].
Qed.

(** ** Subscribers that never call [connect()] *)

Ltac open_tidy H :=
  let H1 := fresh "Hpresent" in let H2 := fresh "Honly" in let H3 := fresh "Hqueue" in
  destruct H as (H1 & H2 & H3); exec;
  match type of H3 with
  | map timer_id _ = [_] => apply timers_single in H3 as (?tm & -> & <-)
  | map timer_id _ = [] => apply timers_none in H3 as ->
  | _ => idtac
  end.

Ltac cases_of_tidy_world w H :=
  let u := fresh "u" in let sock := fresh "sock" in let st := fresh "st" in
  let opts := fresh "opts" in let att := fresh "att" in
  let tid := fresh "tid" in let flag := fresh "flag" in
  let em := fresh "em" in let con := fresh "con" in
  let socks := fresh "socks" in let wr := fresh "wr" in
  let tms := fresh "tms" in let nt := fresh "nt" in let clk := fresh "clk" in
  destruct w as [[u sock st opts att tid flag] [em con socks wr tms nt clk]];
  unfold tidy in H; destruct tid; open_tidy H;
  destruct st, sock; exec; try discriminate.

Ltac tidy_done :=
  unfold tidy; exec; rewrite ?cancel_single; simpl;
  (split; [|split]); field_done.

(** [disconnect()], called from anywhere, keeps the world tidy, and it
    does nothing but warn while the client holds no socket. *)
Lemma disconnect_tidy w : tidy w -> tidy (run_in disconnect w).
Proof.
  intros H. cases_of_tidy_world w H.
  all: match goal with
       | |- context [?s !! ?t] => destruct (s !! t)
       | _ => idtac
       end.
  all: tidy_done.
Qed.

Lemma disconnect_frame w :
  ws (this w) = None ->
  this (run_in disconnect w) = this w
  /\ sockets (host (run_in disconnect w)) = sockets (host w)
  /\ timers (host (run_in disconnect w)) = timers (host w)
  /\ nextTimer (host (run_in disconnect w)) = nextTimer (host w).
Proof.
  intros Hws. destruct w as [[u sock st opts att tid flag] h]. simpl in Hws.
  subst sock. repeat split; reflexivity.
Qed.

Section GentleCalls.

Variable notify : WebSocketEvents.t -> M unit.
Hypothesis notify_gentle : gentle notify.

Lemma sendMessage_tidy outcome data w :
  tidy w -> tidy (run_in (Subscribed.sendMessage notify outcome data) w).
Proof.
  intros H.
  destruct w as [[u sock st opts att tid flag] [em con socks wr tms nt clk]].
  destruct sock as [t|]; [|exact H].
  destruct st; try exact H.
  destruct outcome as [e|]; [|exact H].
  unfold run_in, Subscribed.sendMessage. exec.
  match goal with
  | |- context [notify ?ev ?W] =>
      pose proof (proj1 (notify_gentle ev W) H) as Ht; unfold run_in in Ht;
      destruct (notify ev W) as [[[]|x] W1]; exact Ht
  end.
Qed.

Lemma sendMessage_frame outcome data w :
  ws (this w) = None ->
  this (run_in (Subscribed.sendMessage notify outcome data) w) = this w
  /\ sockets (host (run_in (Subscribed.sendMessage notify outcome data) w))
     = sockets (host w)
  /\ timers (host (run_in (Subscribed.sendMessage notify outcome data) w))
     = timers (host w)
  /\ nextTimer (host (run_in (Subscribed.sendMessage notify outcome data) w))
     = nextTimer (host w).
Proof.
  intros Hws. destruct w as [[u sock st opts att tid flag] h]. simpl in Hws.
  subst sock. repeat split; reflexivity.
Qed.

(** The calls of a subscriber that never calls [connect()]. *)
Lemma perform_all_gentle cs :
  forallb (fun c => negb (calls_connect c)) cs = true ->
  forall w,
    (tidy w -> tidy (run_in (Subscribed.perform_all notify cs) w))
    /\ (ws (this w) = None ->
        this (run_in (Subscribed.perform_all notify cs) w) = this w
        /\ sockets (host (run_in (Subscribed.perform_all notify cs) w)) = sockets (host w)
        /\ timers (host (run_in (Subscribed.perform_all notify cs) w)) = timers (host w)
        /\ nextTimer (host (run_in (Subscribed.perform_all notify cs) w))
           = nextTimer (host w)).
Proof.
  induction cs as [|c cs IH]; intros Hfree w; simpl in Hfree.
  - split; [intros H; exact H | intros _; repeat split; reflexivity].
  - apply andb_prop in Hfree as [Hc Hcs]. specialize (IH Hcs).
    assert (Hone :
      (tidy w -> tidy (run_in (Subscribed.perform notify c) w))
      /\ (ws (this w) = None ->
          this (run_in (Subscribed.perform notify c) w) = this w
          /\ sockets (host (run_in (Subscribed.perform notify c) w)) = sockets (host w)
          /\ timers (host (run_in (Subscribed.perform notify c) w)) = timers (host w)
          /\ nextTimer (host (run_in (Subscribed.perform notify c) w))
             = nextTimer (host w))).
    { destruct c as [ctor| |outcome data|error]; simpl in Hc; [discriminate| | |].
      - split; [apply disconnect_tidy | apply disconnect_frame].
      - split; [apply sendMessage_tidy | apply sendMessage_frame].
      - split; [intros H; exact H | intros _; repeat split; reflexivity]. }
    destruct Hone as [Ht Hf].
    unfold run_in in *. simpl. unfold bind.
    destruct (Subscribed.perform notify c w) as [[[]|x] w1]; simpl in Ht, Hf.
    + destruct (IH w1) as [Ht1 Hf1]. split.
      * intros H. apply Ht1, Ht, H.
      * intros Hws. destruct (Hf Hws) as (Hthis & Hs & Htm & Hnt).
        assert (Hws1 : ws (this w1) = None) by (rewrite Hthis; exact Hws).
        destruct (Hf1 Hws1) as (Hthis1 & Hs1 & Htm1 & Hnt1).
        repeat split; congruence.
    + split; [exact Ht | exact Hf].
Qed.

End GentleCalls.

(** [Subscribed.emit], step by step. *)
Lemma emit_unfold subs depth ev w :
  Subscribed.emit subs depth ev w =
  let w0 := mkWorld (this w) (with_emitted (emitted (host w) ++ [ev]) (host w)) in
  match subs ev w0 with
  | [] => (Normal tt, w0)
  | c :: cs =>
      match depth with
      | O => (Thrown "RangeError: Maximum call stack size exceeded", w0)
      | S d => Subscribed.perform_all (Subscribed.emit subs d) (c :: cs) w0
      end
  end.
Proof.
  destruct depth; simpl; unfold bind, on_host, observe; simpl;
    destruct (subs ev _); reflexivity.
Qed.

Lemma emit_gentle subs :
  connect_free subs -> forall depth, gentle (Subscribed.emit subs depth).
Proof.
  intros Hfree.
  induction depth as [|d IH]; intros ev [c h]; unfold run_in;
    rewrite emit_unfold; cbv zeta;
    match goal with |- context [subs ev ?W] => set (w0 := W) end;
    pose proof (Hfree ev w0) as Hcs;
    destruct (subs ev w0) as [|c0 cs].
  1-3: split; [intros H; exact H | intros _; repeat split; reflexivity].
  destruct (perform_all_gentle (Subscribed.emit subs d) IH (c0 :: cs) Hcs w0)
    as [Ht Hf].
  unfold run_in in Ht, Hf. split.
  - intros H. apply Ht. exact H.
  - intros Hws. destruct (Hf Hws) as (H1 & H2 & H3 & H4).
    repeat split; assumption.
Qed.

Section GentleHandlers.

Variable notify : WebSocketEvents.t -> M unit.
Hypothesis notify_gentle : gentle notify.

(** Go past the next notification: it returns or throws, in a world [w1]
    about which [gentle] is all that is known. *)
Ltac pass_notify Ht Hf w1 :=
  match goal with
  | |- context [notify ?ev ?W] =>
      destruct (notify_gentle ev W) as [Ht Hf];
      unfold run_in in Ht, Hf;
      destruct (notify ev W) as [[[]|?x] w1];
      cbv beta iota delta [fst snd] in Ht, Hf |- *
  end.

Lemma scheduleReconnect_tidy w :
  tidy w -> ws (this w) = None ->
  tidy (run_in (Subscribed.scheduleReconnect notify) w).
Proof.
  intros H Hws.
  destruct w as [[u sock st opts att tid flag] [em con socks wr tms nt clk]].
  simpl in Hws. subst sock.
  destruct tid as [id|]; [destruct opts; exact H|].
  destruct opts as [[r d inc]|]; [|exact H].
  destruct st; try exact H; try (destruct H as [H _]; discriminate H).
  all: unfold run_in, Subscribed.scheduleReconnect; exec.
  all: destruct (att >=? r)%Z; [exact H|].
  all: destruct H as (Hp & Ho & Hq); exec; apply timers_none in Hq as ->.
  all: pass_notify Ht Hf w1.
  all: try (apply Ht; tidy_done).
  all: destruct (Hf eq_refl) as (Hthis & Hs & Htm & Hnt).
  all: destruct w1 as [c1 [em1 con1 socks1 wr1 tms1 nt1 clk1]]; simpl in *; subst.
  all: tidy_done.
Qed.

Lemma connect_tidy ctor w :
  tidy w -> tidy (run_in (Subscribed.connect notify ctor) w).
Proof.
  intros H.
  destruct w as [[u sock st opts att tid flag] [em con socks wr tms nt clk]].
  destruct st; try exact H.
  all: destruct sock; [destruct H as [H _]; discriminate H|].
  all: destruct tid; open_tidy H.
  all: destruct ctor as [e|]; unfold run_in, Subscribed.connect; exec;
         rewrite ?cancel_single; try tidy_done.
  all: pass_notify Ht Hf w1.
  all: try (apply Ht; tidy_done).
  all: destruct (Hf eq_refl) as (Hthis & Hs & Htm & Hnt).
  all: apply scheduleReconnect_tidy; [apply Ht; tidy_done | rewrite Hthis; reflexivity].
Qed.

Lemma handleMessage_tidy data w :
  tidy w -> tidy (run_in (Subscribed.handleMessage notify data) w).
Proof.
  intros H. destruct w as [c [em con socks wr tms nt clk]].
  unfold run_in, Subscribed.handleMessage; exec.
  pass_notify Ht Hf w1; apply Ht; exact H.
Qed.

Lemma handleError_tidy event w :
  tidy w -> tidy (run_in (Subscribed.handleError notify event) w).
Proof.
  intros H. destruct w as [c [em con socks wr tms nt clk]].
  unfold run_in, Subscribed.handleError; exec.
  pass_notify Ht Hf w1; apply Ht; exact H.
Qed.

(** A socket that can still dispatch is the one the client holds. *)
Lemma tidy_dispatching t r w :
  tidy w -> sockets (host w) !! t = Some r -> r <> CLOSED -> ws (this w) = Some t.
Proof. intros (_ & Ho & _) Ht Hr. exact (Ho t r Ht Hr). Qed.

Lemma handleOpen_tidy t w :
  tidy w -> sockets (host w) !! t = Some CONNECTING ->
  tidy (run_in (Subscribed.handleOpen notify) (set_ready t OPEN w)).
Proof.
  intros H Hl.
  pose proof (tidy_dispatching t CONNECTING w H Hl ltac:(discriminate)) as Hws.
  destruct w as [[u sock st opts att tid flag] [em con socks wr tms nt clk]].
  simpl in Hws, Hl. subst sock. destruct H as (Hp & Ho & Hq).
  assert (H0 : forall u' att' flag' em' con',
            tidy (mkWorld (mkClient u' (Some t) Connected opts att' tid flag')
                    (mkHost em' con' (<[t := OPEN]> socks) wr tms nt clk))).
  { intros. split; [reflexivity|]. split; [|exact Hq].
    apply live_only_update. exact Ho. }
  unfold run_in, Subscribed.handleOpen; exec.
  destruct flag; exec.
  - pass_notify Ht Hf w1; [|apply Ht, H0].
    specialize (Ht (H0 _ _ _ _ _)).
    pass_notify Ht' Hf' w2; apply Ht', Ht.
  - pass_notify Ht Hf w1; apply Ht, H0.
Qed.

Lemma handleClose_tidy t r event w :
  tidy w -> sockets (host w) !! t = Some r -> r <> CLOSED ->
  tidy (run_in (Subscribed.handleClose notify event) (set_ready t CLOSED w)).
Proof.
  intros H Hl Hr.
  pose proof (tidy_dispatching t r w H Hl Hr) as Hws.
  destruct w as [[u sock st opts att tid flag] [em con socks wr tms nt clk]].
  simpl in Hws, Hl. subst sock. destruct H as (Hp & Ho & Hq).
  assert (H0 : forall u' att' flag' em' con',
            tidy (mkWorld (mkClient u' None Idle opts att' tid flag')
                    (mkHost em' con' (<[t := CLOSED]> socks) wr tms nt clk))).
  { intros. split; [reflexivity|]. split; [|exact Hq].
    apply live_only_closed. exact Ho. }
  destruct st; try discriminate Hp.
  all: unfold run_in, Subscribed.handleClose; exec.
  all: pass_notify Ht Hf w1; try (apply Ht, H0).
  all: specialize (Ht (H0 _ _ _ _ _)).
  all: destruct (Hf eq_refl) as (Hthis & Hs & Htm & Hnt).
  all: destruct w1 as [c1 h1]; simpl in Hthis; subst c1; exec.
  all: destruct opts as [o|]; exec;
         [apply scheduleReconnect_tidy; [exact Ht | reflexivity] | exact Ht].
Qed.

Lemma reconnectTimerCallback_tidy id ctor tm w :
  tidy w -> find_timer id (timers (host w)) = Some tm ->
  tidy (run_in (Subscribed.reconnectTimerCallback notify ctor) (dequeue id w)).
Proof.
  intros H Hfind.
  destruct w as [[u sock st opts att tid flag] [em con socks wr tms nt clk]].
  destruct H as (Hp & Ho & Hq). simpl in Hp, Ho, Hq, Hfind.
  destruct tid as [id'|].
  2:{ apply timers_none in Hq as ->. discriminate Hfind. }
  apply timers_single in Hq as (tm' & -> & <-).
  apply find_single in Hfind as [-> <-].
  assert (H0 : tidy (mkWorld (mkClient u sock st opts att None flag)
                       (mkHost em con socks wr [] nt clk))).
  { split; [exact Hp|]. split; [exact Ho | reflexivity]. }
  unfold run_in, Subscribed.reconnectTimerCallback, dequeue; exec.
  rewrite cancel_single.
  destruct st; exec; try exact H0.
  apply (connect_tidy ctor _ H0).
Qed.

End GentleHandlers.

(** Every task keeps the world tidy, whatever the subscribers do short of
    calling [connect()]. *)
Lemma step_tidy subs depth i w w' :
  connect_free subs -> tidy w -> Subscribed.step subs depth i w = Some w' -> tidy w'.
Proof.
  intros Hfree H Hstep.
  pose proof (emit_gentle subs Hfree depth) as Hg.
  destruct i as [ctor| |outcome data|t|t data|t event|t event|ms|id ctor];
    unfold Subscribed.step in Hstep.
  - injection Hstep as <-. apply connect_tidy; assumption.
  - injection Hstep as <-. apply disconnect_tidy; assumption.
  - injection Hstep as <-. apply sendMessage_tidy; assumption.
  - destruct (sockets (host w) !! t) as [[]|] eqn:Hl; try discriminate.
    injection Hstep as <-. apply handleOpen_tidy; assumption.
  - destruct (sockets (host w) !! t) as [[]|] eqn:Hl; try discriminate;
      injection Hstep as <-; apply handleMessage_tidy; assumption.
  - destruct (sockets (host w) !! t) as [[]|] eqn:Hl; try discriminate;
      injection Hstep as <-; apply handleError_tidy; assumption.
  - destruct (sockets (host w) !! t) as [[]|] eqn:Hl; try discriminate;
      injection Hstep as <-;
      (eapply handleClose_tidy; [assumption | assumption | exact Hl | discriminate]).
  - destruct (0 <=? ms)%Z; [|discriminate]. injection Hstep as <-.
    destruct w as [c [em con socks wr tms nt clk]]. exact H.
  - destruct (find_timer id (timers (host w))) as [tm|] eqn:Hfind; [|discriminate].
    destruct (timer_due tm <=? now (host w))%Z; [|discriminate].
    injection Hstep as <-. eapply reconnectTimerCallback_tidy; eassumption.
Qed.

Lemma run_tidy subs depth tr : forall w w',
  connect_free subs -> tidy w -> Subscribed.run subs depth tr w = Some w' -> tidy w'.
Proof.
  induction tr as [|i tr IH]; intros w w' Hfree H Hrun; simpl in Hrun.
  - injection Hrun as <-. exact H.
  - destruct (Subscribed.step subs depth i w) as [w1|] eqn:Hstep; [|discriminate].
    apply (IH w1 w' Hfree); [|exact Hrun].
    exact (step_tidy subs depth i w w1 Hfree H Hstep).
Qed.

Lemma initial_tidy url opts : tidy (initial url opts).
Proof.
  split; [reflexivity|]. split; [|reflexivity].
  intros t r Ht. simpl in Ht. rewrite lookup_nil in Ht. discriminate.
Qed.

Lemma silent_connect_free subs : silent subs -> connect_free subs.
Proof. intros Hs ev w. rewrite (Hs ev w). reflexivity. Qed.

(** ** State and socket, with subscribers *)

(** C2, as amended: for a client whose subscribers never call
    [connect()] from inside a notification (they may call [disconnect()]
    and [sendMessage()] there, and they may throw), after any run of the
    event loop the state is one of the five values and [this.ws] is set
    exactly in the states Connecting, Connected and Disconnecting; it is
    [null] in Idle and Reconnecting. *)
Theorem socket_iff_state_without_nested_connect
    (subs : Subscribers) (depth : nat)
    (url : string) (opts : option ReconnectOptions) (tr : list Input) (w : World) :
  connect_free subs ->
  Subscribed.run subs depth tr (initial url opts) = Some w ->
  In (state (this w)) [Idle; Connecting; Connected; Reconnecting; Disconnecting]
  /\ (ws (this w) <> None <->
      In (state (this w)) [Connecting; Connected; Disconnecting])
  /\ (state (this w) = Idle \/ state (this w) = Reconnecting -> ws (this w) = None).
Proof.
  intros Hfree Hrun.
  destruct (run_tidy subs depth tr _ w Hfree (initial_tidy url opts) Hrun)
    as (Hp & _ & _).
  destruct w as [[u sock st o att tid flag] h]. simpl in *.
  destruct st, sock; simpl in Hp; try discriminate; repeat split;
    simpl; try tauto; try congruence; intuition (try discriminate; try congruence).
Qed.

Lemma socket_iff_state_without_nested_connect_witness :
  let w := run_in (Subscribed.handleOpen (Subscribed.emit disconnect_on_connected 1))
             (set_ready 0%nat OPEN
                (run_in (connect None) (initial "ws://localhost:1234" None))) in
  state (this w) = Disconnecting
  /\ (ws (this w) <> None <->
      In (state (this w)) [Connecting; Connected; Disconnecting]).
Proof.
  intros w. split; [reflexivity|].
  apply (socket_iff_state_without_nested_connect disconnect_on_connected 1%nat
           "ws://localhost:1234" None [CallConnect None; OnOpen 0%nat] w).
  - intros ev w0. destruct ev; reflexivity.
  - reflexivity.
Defined.

(** C2 as stated fails when a subscriber calls back.  A subscriber to
    Disconnected calls [connect()]; the client has reconnect options.  The
    socket opens and then drops: [handleClose] clears [this.ws] and emits
    Disconnected, the subscriber's [connect()] constructs socket 1, and
    [handleClose] goes on to [scheduleReconnect].  The client is
    Reconnecting and holds a socket. *)
Lemma socket_iff_state_fails_with_callbacks :
  exists w,
    Subscribed.run reconnect_on_disconnected 1
      [CallConnect None; OnOpen 0%nat; OnClose 0%nat (mkCloseEvent 1006 "" false)]
      (initial "ws://localhost:1234" (Some (mkReconnectOptions 3 50 false)))
    = Some w
    /\ state (this w) = Reconnecting
    /\ ws (this w) = Some 1%nat
    /\ ~ (ws (this w) <> None <->
          In (state (this w)) [Connecting; Connected; Disconnecting]).
Proof.
  eexists. split; [vm_compute; reflexivity|].
  split; [reflexivity|]. split; [reflexivity|].
  intros [Hto _]. simpl in Hto.
  destruct (Hto ltac:(discriminate)) as [H | [H | [H | []]]]; discriminate.
Qed.

(** ** The retry timer, with subscribers *)




(** ** A manual [connect] during the retry delay, with subscribers *)

(** C10, as amended: for a client whose subscribers do nothing to it
    (they call none of its methods and do not throw), in any world a run
    leads to in which the state is Reconnecting, a retry timer is pending.  A [connect()] called then is not a no-op: it
    cancels the timer, constructs a socket and moves to Connecting, and it
    leaves the reconnect flag set.  So when that socket opens, whatever
    happened in between, Reconnected is emitted immediately before
    Connected. *)
Theorem manual_connect_while_reconnecting_without_callbacks
    (subs : Subscribers) (depth : nat)
    (url : string) (opts : option ReconnectOptions) (tr : list Input) (w : World) :
  silent subs ->
  Subscribed.run subs depth tr (initial url opts) = Some w ->
  state (this w) = Reconnecting ->
  let w1 := run_in (Subscribed.connect (Subscribed.emit subs depth) None) w in
  let t := length (sockets (host w)) in
  (exists tm, timers (host w) = [tm]
              /\ reconnectTimeoutId (this w) = Some (timer_id tm))
  /\ timers (host w1) = []
  /\ reconnectTimeoutId (this w1) = None
  /\ sockets (host w1) = sockets (host w) ++ [CONNECTING]
  /\ ws (this w1) = Some t
  /\ state (this w1) = Connecting
  /\ isReconnectingAttempt (this w1) = true
  /\ (forall tr' w2 w3,
        Subscribed.run subs depth tr' w1 = Some w2 ->
        Subscribed.step subs depth (OnOpen t) w2 = Some w3 ->
        emitted (host w3) =
          emitted (host w2) ++
          [WebSocketEvents.Reconnected; WebSocketEvents.Connected]).
Proof.
  intros Hs Hrun Hst w1 t. subst w1 t.
  rewrite (run_silent subs depth tr _ Hs) in Hrun.
  assert (Hreach : reachable w) by (exists url, opts, tr; exact Hrun).
  assert (Hsame : run_in (Subscribed.connect (Subscribed.emit subs depth) None) w
                  = run_in (connect None) w).
  { unfold run_in. rewrite connect_same; [reflexivity|].
    intros ev w0. apply emit_silent, Hs. }
  rewrite Hsame.
  destruct (manual_connect_while_reconnecting w Hreach Hst)
    as (Htm & Htms & Htid & Hsocks & Hws & Hst1 & Hflag & Hopens).
  repeat (split; [assumption|]).
  intros tr' w2 w3 Hrun' Hopen.
  rewrite (run_silent subs depth tr' _ Hs) in Hrun'.
  rewrite (step_silent subs depth _ _ Hs) in Hopen.
  exact (Hopens tr' w2 w3 Hrun' Hopen).
Qed.

Lemma manual_connect_while_reconnecting_without_callbacks_witness :
  let w := run_in (handleClose (mkCloseEvent 1006 "" false))
             (set_ready 0%nat CLOSED
                (run_in (connect None)
                   (initial "ws://localhost:1234" (Some (mkReconnectOptions 3 50 false))))) in
  let w1 := run_in (Subscribed.connect (Subscribed.emit (fun _ _ => []) 0%nat) None) w in
  emitted (host (run_in (Subscribed.handleOpen (Subscribed.emit (fun _ _ => []) 0%nat))
                   (set_ready 1%nat OPEN w1))) =
    emitted (host w1) ++ [WebSocketEvents.Reconnected; WebSocketEvents.Connected].
Proof.
  intros w w1.
  destruct (manual_connect_while_reconnecting_without_callbacks (fun _ _ => []) 0%nat
              "ws://localhost:1234" (Some (mkReconnectOptions 3 50 false))
              [CallConnect None; OnClose 0%nat (mkCloseEvent 1006 "" false)] w)
    as (_ & _ & _ & _ & _ & _ & _ & Hopens).
  - intros ev w0. reflexivity.
  - reflexivity.
  - reflexivity.
  - exact (Hopens [] w1 _ eq_refl eq_refl).
Defined.

(** C10 as stated fails when the manual [connect()] comes from a
    subscriber.  A subscriber to Reconnecting calls [connect()]: the state
    is Reconnecting and the timer has not fired, it has not even been
    created.  The call constructs socket 1; back in [scheduleReconnect] the
    timer is created all the same.  It fires while the client is
    Connecting, which clears the reconnect flag, and when socket 1 opens
    Connected is emitted alone. *)
Lemma manual_connect_fails_with_callbacks :
  exists w1 w2,
    Subscribed.run (connect_on_reconnecting None) 1
      [CallConnect None; OnOpen 0%nat; OnClose 0%nat (mkCloseEvent 1006 "" false)]
      (initial "ws://localhost:1234" (Some (mkReconnectOptions 3 50 false)))
    = Some w1
    /\ state (this w1) = Connecting
    /\ ws (this w1) = Some 1%nat
    /\ isReconnectingAttempt (this w1) = true
    /\ timers (host w1) = [mkTimer 1%nat 50 50]
    /\ Subscribed.run (connect_on_reconnecting None) 1
         [Elapse 50; TimerFires 1%nat None; OnOpen 1%nat] w1
       = Some w2
    /\ state (this w2) = Connected
    /\ emitted (host w2) =
         [WebSocketEvents.Connected;
          WebSocketEvents.Disconnected false 1006;
          WebSocketEvents.Reconnecting 1;
          WebSocketEvents.Connected]
    /\ reconnections (emitted (host w2)) = 0%nat.
Proof.
  eexists. eexists. split; [vm_compute; reflexivity|].
  do 4 (split; [reflexivity|]).
  split; [vm_compute; reflexivity|].
  repeat (split; [reflexivity|]). reflexivity.
Qed.
